(** * The damage pipeline of the Fabula Ultima system

    A shallow embedding of [src/module/pipelines/damage-pipeline.mjs]:
    the request and context value objects, the affinity resolver, the
    collectors, the calculator and the [process] loop, followed by the
    properties the specification states about them. *)

From Stdlib Require Import ZArith QArith Qcanon Lia.
From stdpp Require Import base strings gmap list.

Local Open Scope string_scope.
Local Open Scope list_scope.

(** ** Values

    The pipeline only moves numbers and missing values around.  A number
    is a rational or [NaN]; sums and products of the amounts, bonuses and
    multipliers are taken exactly (the infinities, the sign of zero and
    the rounding of doubles are left out, as are strings). *)
Module JS.

Inductive number : Type :=
| NaN
| Fin (q : Qc).

Inductive value : Type :=
| Undefined
| Null
| Num (n : number).

Definition of_Z (z : Z) : value := Num (Fin (Q2Qc (inject_Z z))).
Definition of_Q (q : Q) : value := Num (Fin (Q2Qc q)).

(** [ToNumber]: [undefined] is [NaN], [null] is [0]. *)
Definition ToNumber (v : value) : number :=
  match v with
  | Undefined => NaN
  | Null => Fin 0
  | Num n => n
  end.

Definition nadd (a b : number) : number :=
  match a, b with
  | Fin x, Fin y => Fin (x + y)
  | _, _ => NaN
  end.

Definition nmul (a b : number) : number :=
  match a, b with
  | Fin x, Fin y => Fin (x * y)
  | _, _ => NaN
  end.

Definition nneg (a : number) : number :=
  match a with
  | Fin x => Fin (- x)
  | NaN => NaN
  end.

Definition nabs (a : number) : number :=
  match a with
  | Fin x => Fin (if Qc_le_dec 0%Qc x then x else (- x)%Qc)
  | NaN => NaN
  end.

(** [a + b], [a * b], [-a] and [Math.abs(a)] on values. *)
Definition add (a b : value) : value := Num (nadd (ToNumber a) (ToNumber b)).
Definition mul (a b : value) : value := Num (nmul (ToNumber a) (ToNumber b)).
Definition neg (a : value) : value := Num (nneg (ToNumber a)).
Definition abs (a : value) : value := Num (nabs (ToNumber a)).

(** [ToBoolean]: [undefined], [null], [NaN] and [0] are falsy. *)
Definition truthy (v : value) : bool :=
  match v with
  | Num (Fin q) => if Qc_eq_dec q 0%Qc then false else true
  | _ => false
  end.

(** [a || b] *)
Definition or (a b : value) : value := if truthy a then a else b.

(** [a ?? b] *)
Definition nullish (a b : value) : value :=
  match a with
  | Undefined | Null => b
  | _ => a
  end.

(** A [Map] keeps its keys in insertion order; [set] on a key that is
    already there replaces the value in place. *)
Definition Map : Type := list (string * value).

Fixpoint set (m : Map) (k : string) (v : value) : Map :=
  match m with
  | [] => [(k, v)]
  | (k', v') :: m' =>
      if String.eqb k' k then (k, v) :: m' else (k', v') :: set m' k v
  end.

Fixpoint get (m : Map) (k : string) : option value :=
  match m with
  | [] => None
  | (k', v') :: m' => if String.eqb k' k then Some v' else get m' k
  end.

Definition values (m : Map) : list value := map snd m.

End JS.

Export JS(number(..), value(..)).

(** ** Data model *)

(** [FU.affValue]: the index of each affinity tier.  The table lives in
    [helpers/config.mjs]; the pipeline only compares the indices and uses
    them as keys, so they are taken as a parameter. *)
Record AffValue : Type := {
  vulnerability : Z;
  none : Z;
  resistance : Z;
  immunity : Z;
  absorption : Z;
}.

(** [const Traits] *)
Module Traits.
Definition IgnoreResistance : string := "ignore-resistance".
Definition IgnoreImmunity : string := "ignore-immunity".
End Traits.

(** [actor.system.bonuses]: the outgoing ([damage]) and incoming tables,
    each keyed by ["all"] and by damage type. *)
Module Bonuses.
Record t : Type := {
  damage : gmap string value;
  incomingDamage : gmap string value;
}.
End Bonuses.

(** The part of an actor the pipeline reads: its name,
    [system.affinities] (damage type to the [current] index),
    [system.bonuses] when the actor has them, and the value
    [getFlag(Flags.Scope, Flags.Modifier.ScaleIncomingDamage)] returns. *)
Module Actor.
Record t : Type := {
  name : string;
  affinities : gmap string Z;
  bonuses : option Bonuses.t;
  scaleIncomingDamage : value;
}.
End Actor.

(** A value found where a target list is expected. *)
Inductive Targets : Type :=
| TUndefined
| TNull
| TArray (actors : list Actor.t)
| TOther (truthy : bool).

Definition Targets_truthy (t : Targets) : bool :=
  match t with
  | TUndefined | TNull => false
  | TArray _ => true
  | TOther b => b
  end.

(** [Array.isArray] *)
Definition isArray (t : Targets) : bool :=
  match t with
  | TArray _ => true
  | _ => false
  end.

(** Modelled from the spec: [InlineSourceInfo] of [helpers/inline-helper.mjs]
    is not among the sources; the source descriptor carries a name and, when
    it resolves to one, the actor that caused the damage. *)
Module SourceInfo.
Record t : Type := {
  name : string;
  actor : option Actor.t;
}.
End SourceInfo.

Module BaseDamageInfo.
Record t : Type := {
  total : value;
  type : string;
  modifierTotal : value;
}.
End BaseDamageInfo.

(** [ExtraDamageInfo]; a field that is not set is [None], [Undefined],
    [false] or [TUndefined]. *)
Module ExtraDamageInfo.
Record t : Type := {
  damageType : option string;
  damageBonus : value;
  extraDamage : value;
  hrZero : bool;
  ignoreVulnerable : bool;
  ignoreResistance : bool;
  ignoreImmunities : bool;
  ignoreAbsorption : bool;
  targets : Targets;
}.

(** The default [{}] of the constructor. *)
Definition empty : t := {|
  damageType := None;
  damageBonus := Undefined;
  extraDamage := Undefined;
  hrZero := false;
  ignoreVulnerable := false;
  ignoreResistance := false;
  ignoreImmunities := false;
  ignoreAbsorption := false;
  targets := TUndefined;
|}.

Definition with_targets (e : t) (ts : Targets) : t := {|
  damageType := damageType e;
  damageBonus := damageBonus e;
  extraDamage := extraDamage e;
  hrZero := hrZero e;
  ignoreVulnerable := ignoreVulnerable e;
  ignoreResistance := ignoreResistance e;
  ignoreImmunities := ignoreImmunities e;
  ignoreAbsorption := ignoreAbsorption e;
  targets := ts;
|}.
End ExtraDamageInfo.

(** [ApplyTargetOverrides]: [number | null] each. *)
Module Overrides.
Record t : Type := {
  affinity : option Z;
  total : value;
}.

Definition empty : t := {| affinity := None; total := Undefined |}.
End Overrides.

(** ** DamageRequest *)
Module DamageRequest.

(** Modelled from the spec: [PipelineRequest] of [pipelines/pipeline.mjs]
    is not among the sources; its constructor stores the source
    descriptor and the target list and starts with an empty set of
    traits. *)
Record t : Type := {
  sourceInfo : SourceInfo.t;
  targets : Targets;
  traits : gset string;
  baseDamageInfo : BaseDamageInfo.t;
  extraDamageInfo : ExtraDamageInfo.t;
  damageType : string;
  overrides : Overrides.t;
  amount : value;
}.

(** [extraDamageInfo.damageType || baseDamageInfo.type] *)
Definition resolveDamageType (b : BaseDamageInfo.t) (e : ExtraDamageInfo.t) : string :=
  match ExtraDamageInfo.damageType e with
  | Some s => if String.eqb s "" then BaseDamageInfo.type b else s
  | None => BaseDamageInfo.type b
  end.

(** The derived amount, computed once by the constructor. *)
Definition deriveAmount (b : BaseDamageInfo.t) (e : ExtraDamageInfo.t) : value :=
  if ExtraDamageInfo.hrZero e
  then JS.add (JS.add (ExtraDamageInfo.damageBonus e) (BaseDamageInfo.modifierTotal b))
              (JS.or (ExtraDamageInfo.extraDamage e) (JS.of_Z 0))
  else JS.add (JS.add (BaseDamageInfo.total b)
                      (JS.or (ExtraDamageInfo.damageBonus e) (JS.of_Z 0)))
              (JS.or (ExtraDamageInfo.extraDamage e) (JS.of_Z 0)).

Definition constructor (src : SourceInfo.t) (tgts : Targets)
    (b : BaseDamageInfo.t) (e : ExtraDamageInfo.t) : t := {|
  sourceInfo := src;
  targets := tgts;
  traits := ∅;
  baseDamageInfo := b;
  extraDamageInfo := e;
  damageType := resolveDamageType b e;
  overrides := Overrides.empty;
  amount := deriveAmount b e;
|}.

(** [get allTargets()] *)
Definition allTargets (r : t) : Targets :=
  if Targets_truthy (ExtraDamageInfo.targets (extraDamageInfo r))
  then ExtraDamageInfo.targets (extraDamageInfo r)
  else targets r.

(** [validate()]: [None] is the bare [return;] of the first branch. *)
Definition validate (r : t) : option bool :=
  if negb (Targets_truthy (allTargets r)) then None
  else if negb (isArray (targets r)) then Some false
  else Some true.

(** What callers assign after construction. *)
Definition with_traits (r : t) (ts : gset string) : t := {|
  sourceInfo := sourceInfo r;
  targets := targets r;
  traits := ts;
  baseDamageInfo := baseDamageInfo r;
  extraDamageInfo := extraDamageInfo r;
  damageType := damageType r;
  overrides := overrides r;
  amount := amount r;
|}.

Definition with_overrides (r : t) (o : Overrides.t) : t := {|
  sourceInfo := sourceInfo r;
  targets := targets r;
  traits := traits r;
  baseDamageInfo := baseDamageInfo r;
  extraDamageInfo := extraDamageInfo r;
  damageType := damageType r;
  overrides := o;
  amount := amount r;
|}.

End DamageRequest.

(** [!x] of what [validate] returns. *)
Definition falsy_result (v : option bool) : bool :=
  match v with
  | Some true => false
  | _ => true
  end.

(** ** DamagePipelineContext *)
Module Context.

(** Modelled from the spec: [PipelineContext] of [pipelines/pipeline.mjs]
    is not among the sources; a context carries the fields of its request
    (kept here as [request]), the target [actor] and the source actor when
    the source resolves to one.  [DamagePipelineContext] adds the two maps;
    [affinity], [affinityMessage] and [result] are unset until a stage
    assigns them. *)
Record t : Type := {
  request : DamageRequest.t;
  actor : Actor.t;
  sourceActor : option Actor.t;
  bonuses : JS.Map;
  modifiers : JS.Map;
  affinity : option Z;
  affinityMessage : option string;
  result : value;
}.

Definition constructor (r : DamageRequest.t) (a : Actor.t) : t := {|
  request := r;
  actor := a;
  sourceActor := SourceInfo.actor (DamageRequest.sourceInfo r);
  bonuses := [];
  modifiers := [];
  affinity := None;
  affinityMessage := None;
  result := Undefined;
|}.

Definition overrides (c : t) := DamageRequest.overrides (request c).
Definition extraDamageInfo (c : t) := DamageRequest.extraDamageInfo (request c).
Definition traits (c : t) := DamageRequest.traits (request c).
Definition damageType (c : t) := DamageRequest.damageType (request c).
Definition amount (c : t) := DamageRequest.amount (request c).

Definition set_affinity (c : t) (a : Z) (msg : string) : t := {|
  request := request c; actor := actor c; sourceActor := sourceActor c;
  bonuses := bonuses c; modifiers := modifiers c;
  affinity := Some a; affinityMessage := Some msg; result := result c;
|}.

Definition set_result (c : t) (v : value) : t := {|
  request := request c; actor := actor c; sourceActor := sourceActor c;
  bonuses := bonuses c; modifiers := modifiers c;
  affinity := affinity c; affinityMessage := affinityMessage c; result := v;
|}.

Definition set_bonus (c : t) (k : string) (v : value) : t := {|
  request := request c; actor := actor c; sourceActor := sourceActor c;
  bonuses := JS.set (bonuses c) k v; modifiers := modifiers c;
  affinity := affinity c; affinityMessage := affinityMessage c; result := result c;
|}.

Definition set_modifier (c : t) (k : string) (v : value) : t := {|
  request := request c; actor := actor c; sourceActor := sourceActor c;
  bonuses := bonuses c; modifiers := JS.set (modifiers c) k v;
  affinity := affinity c; affinityMessage := affinityMessage c; result := result c;
|}.

End Context.

(** ** Hooks

    [Hooks.call] hands the context to whatever listeners other modules have
    registered; a listener may change any field of it.  The two pipeline
    hooks are therefore context transformers; [no_listeners] is the system
    on its own. *)
Record Hooks : Type := {
  DAMAGE_PIPELINE_COLLECT : Context.t -> Context.t;
  DAMAGE_PIPELINE_CALCULATE : Context.t -> Context.t;
}.

Definition no_listeners : Hooks := {|
  DAMAGE_PIPELINE_COLLECT := fun c => c;
  DAMAGE_PIPELINE_CALCULATE := fun c => c;
|}.

(** ** Side effects of [process], in the order they are issued *)
Inductive Effect : Type :=
| Hook_DAMAGE_APPLY_BEFORE (request : DamageRequest.t)
| Hook_DAMAGE_APPLY_TARGET (request : DamageRequest.t) (actor : Actor.t) (result : value)
| modifyTokenAttribute (actor : Actor.t) (attribute : string) (delta : value) (isDelta : bool)
| ChatMessage_create (speaker : Actor.t) (flavor : option Z) (message : option string)
    (actor : string) (damage : value) (type : string) (from : string).

(** How the promise [process] returns settles. *)
Inductive Outcome : Type :=
| Resolved
| Rejected (reason : string)
| Thrown (message : string).

(** ** The pipeline *)
Section Pipeline.

Variable affValue : AffValue.
Variable hooks : Hooks.

(** [const affinityDamageModifier]: an object literal with computed keys,
    a later key replacing an equal earlier one. *)
Definition affinityDamageModifier : gmap Z value :=
  <[absorption affValue := JS.of_Z (-1)]>
  (<[immunity affValue := JS.of_Z 0]>
  (<[resistance affValue := JS.of_Q (1 # 2)]>
  (<[none affValue := JS.of_Z 1]>
  (<[vulnerability affValue := JS.of_Z 2]> ∅)))).

(** [affinityDamageModifier[context.affinity]] *)
Definition affinityDamageModifier_at (a : option Z) : value :=
  match a with
  | Some z => default Undefined (affinityDamageModifier !! z)
  | None => Undefined
  end.

(** [context.overrides?.affinity] as a condition *)
Definition affinity_truthy (a : option Z) : bool :=
  match a with
  | Some z => negb (Z.eqb z 0)
  | None => false
  end.

(** The tier [resolveAffinity] starts from: the override when there is
    one, else the target's entry for the damage type, else [none]. *)
Definition lookupAffinity (context : Context.t) : Z :=
  (* Default to no affinity *)
  let affinity := none affValue in
  if affinity_truthy (Overrides.affinity (Context.overrides context))
  then default affinity (Overrides.affinity (Context.overrides context))
  else match Actor.affinities (Context.actor context) !! Context.damageType context with
       | Some current => current
       | None => affinity
       end.

Definition resolveAffinity (context : Context.t) : Context.t :=
  let extra := Context.extraDamageInfo context in
  let affinityMessage := "FU.ChatApplyDamageNormal" in
  let affinity := lookupAffinity context in
  (* Check if affinity should be ignored *)
  let '(affinity, affinityMessage) :=
    if Z.eqb affinity (vulnerability affValue)
    then (if ExtraDamageInfo.ignoreVulnerable extra then none affValue else affinity,
          "FU.ChatApplyDamageVulnerable")
    else (affinity, affinityMessage) in
  let '(affinity, affinityMessage) :=
    if Z.eqb affinity (resistance affValue)
    then if ExtraDamageInfo.ignoreResistance extra
            || bool_decide (Traits.IgnoreResistance ∈ Context.traits context)
         then (none affValue, "FU.ChatApplyDamageResistantIgnored")
         else (affinity, "FU.ChatApplyDamageResistant")
    else (affinity, affinityMessage) in
  let '(affinity, affinityMessage) :=
    if Z.eqb affinity (immunity affValue)
    then if ExtraDamageInfo.ignoreImmunities extra
            || bool_decide (Traits.IgnoreImmunity ∈ Context.traits context)
         then (none affValue, "FU.ChatApplyDamageImmuneIgnored")
         else (affinity, "FU.ChatApplyDamageImmune")
    else (affinity, affinityMessage) in
  let '(affinity, affinityMessage) :=
    if Z.eqb affinity (absorption affValue)
    then if ExtraDamageInfo.ignoreAbsorption extra
         then (none affValue, affinityMessage)
         else (affinity, "FU.ChatApplyDamageAbsorb")
    else (affinity, affinityMessage) in
  Context.set_affinity context affinity affinityMessage.

(** Returns the context and whether the result was overridden. *)
Definition overrideResult (context : Context.t) : Context.t * bool :=
  if JS.truthy (Overrides.total (Context.overrides context))
  then (Context.set_result context (Overrides.total (Context.overrides context)), true)
  else (context, false).

(** [table.key] and [table[key]] *)
Definition prop (table : gmap string value) (key : string) : value :=
  default Undefined (table !! key).

Definition collectIncrements (context : Context.t) : Context.t :=
  (* Source *)
  let context :=
    match Context.sourceActor context with
    | Some sourceActor =>
        match Actor.bonuses sourceActor with
        | Some b =>
            let outgoing := Bonuses.damage b in
            let context := Context.set_bonus context "outgoingDamage.all" (prop outgoing "all") in
            Context.set_bonus context "outgoingDamage.damageType"
              (JS.nullish (prop outgoing (Context.damageType context)) (JS.of_Z 0))
        | None => context
        end
    | None => context
    end in
  (* Target *)
  match Actor.bonuses (Context.actor context) with
  | Some b =>
      let incoming := Bonuses.incomingDamage b in
      let context := Context.set_bonus context "incomingDamage.all" (prop incoming "all") in
      Context.set_bonus context "incomingDamage.damageType"
        (JS.nullish (prop incoming (Context.damageType context)) (JS.of_Z 0))
  | None => context
  end.

Definition collectMultipliers (context : Context.t) : Context.t :=
  let target := Context.actor context in
  (* Custom Modifiers *)
  let scaleIncomingDamage := Actor.scaleIncomingDamage target in
  let context :=
    if JS.truthy scaleIncomingDamage
    then Context.set_modifier context "scaleIncomingDamage" scaleIncomingDamage
    else context in
  let context :=
    Context.set_modifier context "affinity"
      (affinityDamageModifier_at (Context.affinity context)) in
  DAMAGE_PIPELINE_COLLECT hooks context.

(** The two loops of [calculateResult], before the result is stored. *)
Definition fold_result (amount : value) (bonuses modifiers : JS.Map) : value :=
  let result := amount in
  (* Increments (+-) *)
  let result := fold_left JS.add (JS.values bonuses) result in
  (* Multipliers ( * ) *)
  fold_left JS.mul (JS.values modifiers) result.

Definition calculateResult (context : Context.t) : Context.t :=
  let result :=
    fold_result (Context.amount context) (Context.bonuses context) (Context.modifiers context) in
  let context := Context.set_result context result in
  DAMAGE_PIPELINE_CALCULATE hooks context.

(** The stages one target goes through inside the loop of [process]. *)
Definition run_stages (request : DamageRequest.t) (actor : Actor.t) : Context.t :=
  (* Create an initial context then run the pipeline *)
  let context := Context.constructor request actor in
  let context := resolveAffinity context in
  let '(context, overridden) := overrideResult context in
  if overridden then context
  else calculateResult (collectMultipliers (collectIncrements context)).

(** What the loop body issues for one target once its result exists. *)
Definition apply_target (request : DamageRequest.t) (actor : Actor.t)
    (context : Context.t) : list Effect :=
  (* Damage application *)
  let damageTaken := JS.neg (Context.result context) in
  [ Hook_DAMAGE_APPLY_TARGET request actor (Context.result context);
    modifyTokenAttribute actor "resources.hp" damageTaken true;
    ChatMessage_create actor (Context.affinity context) (Context.affinityMessage context)
      (Actor.name actor) (JS.abs damageTaken) (DamageRequest.damageType request)
      (SourceInfo.name (DamageRequest.sourceInfo request)) ].

(** [for (const actor of request.targets)], with the effects issued so far. *)
Fixpoint process_targets (request : DamageRequest.t) (actors : list Actor.t)
    (updates : list Effect) : list Effect * Outcome :=
  match actors with
  | [] => (updates, Resolved)
  | actor :: rest =>
      let context := run_stages request actor in
      match Context.result context with
      | Undefined => (updates, Thrown "Failed to generate result during pipeline")
      | _ => process_targets request rest (updates ++ apply_target request actor context)
      end
  end.

Definition process (request : DamageRequest.t) : list Effect * Outcome :=
  if falsy_result (DamageRequest.validate request)
  then ([], Rejected "Request was not valid")
  else
    let updates := [Hook_DAMAGE_APPLY_BEFORE request] in
    match DamageRequest.targets request with
    | TArray actors => process_targets request actors updates
    | _ => (updates, Thrown "request.targets is not iterable")
    end.

End Pipeline.

(** ** Applying damage from a chat card *)

(** The modifier keys of the click that [handleDamageApplication] reads. *)
Record ClickEvent : Type := {
  shiftKey : bool;
  ctrlKey : bool;
  metaKey : bool;
}.

Section Application.

Variable affValue : AffValue.
Variable hooks : Hooks.

(** Modelled from the spec: [InlineSourceInfo] of [helpers/inline-helper.mjs]
    is not among the sources; [resolveSource] is the actor, if any, that the
    descriptor built from the source uuid resolves to. *)
Variable resolveSource : option string -> option Actor.t.

(** The request [handleDamageApplication] builds before it calls
    [process].  The click itself, stored as [request.event], is read by no
    stage and is not kept. *)
Definition applicationRequest (event : ClickEvent) (targets : Targets)
    (sourceUuid : option string) (sourceName : string)
    (baseDamageInfo : BaseDamageInfo.t) (extraDamageInfo : ExtraDamageInfo.t)
    : DamageRequest.t :=
  let sourceInfo :=
    {| SourceInfo.name := sourceName; SourceInfo.actor := resolveSource sourceUuid |} in
  let request := DamageRequest.constructor sourceInfo targets baseDamageInfo extraDamageInfo in
  if shiftKey event
  then
    let request :=
      DamageRequest.with_traits request
        (DamageRequest.traits request ∪ {[ Traits.IgnoreResistance ]}) in
    if ctrlKey event || metaKey event
    then DamageRequest.with_traits request
           (DamageRequest.traits request ∪ {[ Traits.IgnoreImmunity ]})
    else request
  else request.

Definition handleDamageApplication (event : ClickEvent) (targets : Targets)
    (sourceUuid : option string) (sourceName : string)
    (baseDamageInfo : BaseDamageInfo.t) (extraDamageInfo : ExtraDamageInfo.t)
    : list Effect * Outcome :=
  process affValue hooks
    (applicationRequest event targets sourceUuid sourceName baseDamageInfo extraDamageInfo).

End Application.

(** ** Active effect helpers ([src/module/helpers/effects.mjs]) *)
Module Effects.

(** What the helpers read of an [ActiveEffect] document; [isTemporary] is
    the document's own getter. *)
Record ActiveEffect : Type := {
  id : string;
  disabled : bool;
  isTemporary : bool;
  statuses : gset string;
}.

Record Category : Type := {
  type : string;
  label : string;
  effects : list ActiveEffect;
}.

Record Categories : Type := {
  temporary : Category;
  passive : Category;
  inactive : Category;
}.

(** [category.effects.push(e)] *)
Definition push (c : Category) (e : ActiveEffect) : Category :=
  {| type := type c; label := label c; effects := effects c ++ [e] |}.

(** Define effect header categories *)
Definition categories0 : Categories := {|
  temporary := {| type := "temporary"; label := "Temporary Effects"; effects := [] |};
  passive := {| type := "passive"; label := "Passive Effects"; effects := [] |};
  inactive := {| type := "inactive"; label := "Inactive Effects"; effects := [] |};
|}.

(** The body of the loop: the categories and the effects whose
    [_getSourceName] was called so far. *)
Definition classify (st : Categories * list string) (e : ActiveEffect)
    : Categories * list string :=
  let '(categories, lookups) := st in
  let lookups := lookups ++ [id e] in (* Trigger a lookup for the source name *)
  if disabled e
  then ({| temporary := temporary categories; passive := passive categories;
           inactive := push (inactive categories) e |}, lookups)
  else if isTemporary e
  then ({| temporary := push (temporary categories) e; passive := passive categories;
           inactive := inactive categories |}, lookups)
  else ({| temporary := temporary categories; passive := push (passive categories) e;
           inactive := inactive categories |}, lookups).

(** Returns the categories, and the ids of the effects asked for their
    source name, in the order of the calls. *)
Definition prepareActiveEffectCategories (effects : list ActiveEffect)
    : Categories * list string :=
  fold_left classify effects (categories0, []).

(** The status effect handed to [toggleEffect], and the data it hands to
    [ActiveEffect.create]: a clone with [statuses] set and [id] deleted. *)
Record StatusEffect : Type := {
  status_id : string;
  status_name : string;
  status_icon : string;
}.

Record CreateData : Type := {
  create_name : string;
  create_icon : string;
  create_statuses : list string;
}.

(** The document operations the helpers request; of a new effect's data the
    label, the icon, [duration.rounds] and [disabled] are kept, its origin
    being the owner's uuid in every case. *)
Inductive Operation : Type :=
| deleteEmbeddedDocuments (ids : list string)
| create (data : CreateData)
| createEmbeddedDocuments (label icon : string) (durationRounds : option Z) (isDisabled : bool)
| render (effect : ActiveEffect)
| delete (effect : ActiveEffect)
| update (effect : ActiveEffect) (isDisabled : bool).

Section Toggle.

(** [cls.migrateDataSafe] followed by [cls.cleanData], and
    [game.i18n.localize]: the document class and the localisation are not
    part of the module. *)
Variable migrateAndClean : CreateData -> CreateData.
Variable localize : string -> string.

(** The callback of [actor.effects.reduce]. *)
Definition collectExisting (effectData : StatusEffect) (arr : list string)
    (e : ActiveEffect) : list string :=
  if (size (statuses e) =? 1)%nat && bool_decide (status_id effectData ∈ statuses e)
  then arr ++ [id e]
  else arr.

(** Returns the operation awaited and the boolean the promise resolves to. *)
Definition toggleEffect (actorEffects : list ActiveEffect) (effectData : StatusEffect)
    : Operation * bool :=
  let existing := fold_left (collectExisting effectData) actorEffects [] in
  if (0 <? length existing)%nat
  then (deleteEmbeddedDocuments existing, false)
  else
    let createData :=
      {| create_name := status_name effectData;
         create_icon := status_icon effectData;
         create_statuses := [status_id effectData] |} in
    let createData := migrateAndClean createData in
    let createData :=
      {| create_name := localize (create_name createData);
         create_icon := create_icon createData;
         create_statuses := create_statuses createData |} in
    (create createData, true).

End Toggle.

(** The click on an effect control: [a.dataset.action] and, from the
    enclosing list item, [dataset.effectId] and [dataset.effectType]. *)
Record ControlEvent : Type := {
  action : option string;
  effectId : option string;
  effectType : option string;
}.

(** How a call of [onManageActiveEffect] ends. *)
Inductive Managed : Type :=
| Requested (op : Operation)
| Nothing
| TypeError.

(** [owner.effects.get(id)] *)
Definition effects_get (ownerEffects : list ActiveEffect) (i : string)
    : option ActiveEffect :=
  List.find (fun e => String.eqb (id e) i) ownerEffects.

Definition string_truthy (s : option string) : bool :=
  match s with
  | Some s => negb (String.eqb s "")
  | None => false
  end.

(** [s === literal] on a dataset entry *)
Definition dataset_is (s : option string) (literal : string) : bool :=
  match s with
  | Some s => String.eqb s literal
  | None => false
  end.

(** [event.preventDefault()] comes first in every case and is left out of
    the result; reading a property of the missing effect is the
    [TypeError]. *)
Definition onManageActiveEffect (event : ControlEvent)
    (ownerEffects : list ActiveEffect) : Managed :=
  let effect :=
    if string_truthy (effectId event)
    then effects_get ownerEffects (default "" (effectId event))
    else None in
  if dataset_is (action event) "create"
  then Requested
         (createEmbeddedDocuments "New Effect" "icons/svg/aura.svg"
            (if dataset_is (effectType event) "temporary" then Some 1%Z else None)
            (dataset_is (effectType event) "inactive"))
  else if dataset_is (action event) "edit"
  then match effect with Some e => Requested (render e) | None => TypeError end
  else if dataset_is (action event) "delete"
  then match effect with Some e => Requested (delete e) | None => TypeError end
  else if dataset_is (action event) "toggle"
  then match effect with
       | Some e => Requested (update e (negb (disabled e)))
       | None => TypeError
       end
  else Nothing.

(** The three conditions of the loop, each with the ones before it
    failed. *)
Definition isInactive (e : ActiveEffect) : bool := disabled e.
Definition isTemporaryOn (e : ActiveEffect) : bool := negb (disabled e) && isTemporary e.
Definition isPassive (e : ActiveEffect) : bool := negb (disabled e) && negb (isTemporary e).

(** An effect whose only status is the given one. *)
Definition hasOnlyStatus (status : string) (e : ActiveEffect) : bool :=
  bool_decide (statuses e = {[ status ]}).

(** The effect with its [disabled] flag as an update sets it. *)
Definition with_disabled (e : ActiveEffect) (b : bool) : ActiveEffect :=
  {| id := id e; disabled := b; isTemporary := isTemporary e; statuses := statuses e |}.

End Effects.

(** ** Vocabulary of the properties *)

(** [Σ] and [Π] over the values of a map, taken on their own. *)
Definition sum (l : list value) : value := fold_right JS.add (JS.of_Z 0) l.
Definition product (l : list value) : value := fold_right JS.mul (JS.of_Z 1) l.

(** The hit-point updates a run issued: target and delta, in order. *)
Definition pool_updates (trace : list Effect) : list (Actor.t * value) :=
  omap (fun e => match e with
                 | modifyTokenAttribute a "resources.hp" d true => Some (a, d)
                 | _ => None
                 end) trace.

(** Every target a run mutated, whatever the attribute. *)
Definition mutated (trace : list Effect) : list Actor.t :=
  omap (fun e => match e with
                 | modifyTokenAttribute a _ _ _ => Some a
                 | _ => None
                 end) trace.

(** Every target a run emitted a chat record for. *)
Definition reported (trace : list Effect) : list Actor.t :=
  omap (fun e => match e with
                 | ChatMessage_create a _ _ _ _ _ _ => Some a
                 | _ => None
                 end) trace.

(** A target list that is not there at all. *)
Definition absent (t : Targets) : Prop := t = TUndefined \/ t = TNull.

(** The request with another target-list override in its extra-damage
    descriptor. *)
Definition override_targets (r : DamageRequest.t) (ts : Targets) : DamageRequest.t := {|
  DamageRequest.sourceInfo := DamageRequest.sourceInfo r;
  DamageRequest.targets := DamageRequest.targets r;
  DamageRequest.traits := DamageRequest.traits r;
  DamageRequest.baseDamageInfo := DamageRequest.baseDamageInfo r;
  DamageRequest.extraDamageInfo :=
    ExtraDamageInfo.with_targets (DamageRequest.extraDamageInfo r) ts;
  DamageRequest.damageType := DamageRequest.damageType r;
  DamageRequest.overrides := DamageRequest.overrides r;
  DamageRequest.amount := DamageRequest.amount r;
|}.

(** The amount as the specification words it: either sum with a missing
    [damageBonus] or [extraDamage] counted as 0. *)
Definition amount_as_specified (b : BaseDamageInfo.t) (e : ExtraDamageInfo.t) : value :=
  let damageBonus := JS.or (ExtraDamageInfo.damageBonus e) (JS.of_Z 0) in
  let extraDamage := JS.or (ExtraDamageInfo.extraDamage e) (JS.of_Z 0) in
  if ExtraDamageInfo.hrZero e
  then JS.add (JS.add damageBonus (BaseDamageInfo.modifierTotal b)) extraDamage
  else JS.add (JS.add (BaseDamageInfo.total b) damageBonus) extraDamage.

(** Listeners that do not take numbers away: the collect hook leaves a
    numeric amount numeric, and the calculate hook leaves a numeric result
    numeric. *)
Definition hooks_keep_numbers (hooks : Hooks) : Prop :=
  (forall c n, Context.amount c = Num n ->
     exists n', Context.amount (DAMAGE_PIPELINE_COLLECT hooks c) = Num n') /\
  (forall c n, Context.result c = Num n ->
     exists n', Context.result (DAMAGE_PIPELINE_CALCULATE hooks c) = Num n').

(** Listeners that only add to what was collected: the collect hook keeps
    the [affinity] entry of the modifiers, and the calculate hook leaves the
    result and what it was computed from as they are. *)
Definition hooks_keep_collected (hooks : Hooks) : Prop :=
  (forall c v, JS.get (Context.modifiers c) "affinity" = Some v ->
     JS.get (Context.modifiers (DAMAGE_PIPELINE_COLLECT hooks c)) "affinity" = Some v) /\
  (forall c,
     let c' := DAMAGE_PIPELINE_CALCULATE hooks c in
     Context.result c' = Context.result c /\
     Context.amount c' = Context.amount c /\
     Context.bonuses c' = Context.bonuses c /\
     Context.modifiers c' = Context.modifiers c).

(** The five indices are pairwise different. *)
Definition distinct_tiers (av : AffValue) : Prop :=
  NoDup [vulnerability av; none av; resistance av; immunity av; absorption av].

(** ** A small world to run the pipeline in *)
Module Sample.

Definition affValue : AffValue := {|
  vulnerability := -1;
  none := 0;
  resistance := 1;
  immunity := 2;
  absorption := 3;
|}.

Definition source : SourceInfo.t :=
  {| SourceInfo.name := "Flare"; SourceInfo.actor := None |}.

(** A target with one affinity for fire and nothing else. *)
Definition target (fire : Z) : Actor.t := {|
  Actor.name := "Goblin";
  Actor.affinities := {[ "fire" := fire ]};
  Actor.bonuses := None;
  Actor.scaleIncomingDamage := Undefined;
|}.

Definition fire (total : Z) : BaseDamageInfo.t := {|
  BaseDamageInfo.total := JS.of_Z total;
  BaseDamageInfo.type := "fire";
  BaseDamageInfo.modifierTotal := JS.of_Z 3;
|}.

(** [total] fire damage against one target of the given affinity. *)
Definition request (aff total : Z) (e : ExtraDamageInfo.t) : DamageRequest.t :=
  DamageRequest.constructor source (TArray [target aff]) (fire total) e.

Definition ignoringVulnerable : ExtraDamageInfo.t := {|
  ExtraDamageInfo.damageType := None;
  ExtraDamageInfo.damageBonus := Undefined;
  ExtraDamageInfo.extraDamage := Undefined;
  ExtraDamageInfo.hrZero := false;
  ExtraDamageInfo.ignoreVulnerable := true;
  ExtraDamageInfo.ignoreResistance := false;
  ExtraDamageInfo.ignoreImmunities := false;
  ExtraDamageInfo.ignoreAbsorption := false;
  ExtraDamageInfo.targets := TUndefined;
|}.

(** [{ hrZero: true, extraDamage: 2 }] *)
Definition hrZeroNoBonus : ExtraDamageInfo.t := {|
  ExtraDamageInfo.damageType := None;
  ExtraDamageInfo.damageBonus := Undefined;
  ExtraDamageInfo.extraDamage := JS.of_Z 2;
  ExtraDamageInfo.hrZero := true;
  ExtraDamageInfo.ignoreVulnerable := false;
  ExtraDamageInfo.ignoreResistance := false;
  ExtraDamageInfo.ignoreImmunities := false;
  ExtraDamageInfo.ignoreAbsorption := false;
  ExtraDamageInfo.targets := TUndefined;
|}.

(** A source with an outgoing bonus of 2 on everything and 3 on fire, and a
    target with an incoming bonus of 1 on everything. *)
Definition caster : Actor.t := {|
  Actor.name := "Mage";
  Actor.affinities := ∅;
  Actor.bonuses := Some {|
    Bonuses.damage := {[ "all" := JS.of_Z 2; "fire" := JS.of_Z 3 ]};
    Bonuses.incomingDamage := {[ "all" := JS.of_Z 0 ]};
  |};
  Actor.scaleIncomingDamage := Undefined;
|}.

Definition warded (fire : Z) : Actor.t := {|
  Actor.name := "Golem";
  Actor.affinities := {[ "fire" := fire ]};
  Actor.bonuses := Some {|
    Bonuses.damage := {[ "all" := JS.of_Z 0 ]};
    Bonuses.incomingDamage := {[ "all" := JS.of_Z 1 ]};
  |};
  Actor.scaleIncomingDamage := Undefined;
|}.

Definition cast (aff total : Z) : DamageRequest.t :=
  DamageRequest.constructor
    {| SourceInfo.name := "Flare"; SourceInfo.actor := Some caster |}
    (TArray [warded aff]) (fire total) ExtraDamageInfo.empty.

(** [request.overrides.total = 0] *)
Definition totalZero : Overrides.t :=
  {| Overrides.affinity := None; Overrides.total := JS.of_Z 0 |}.

End Sample.

(** ** Further vocabulary and cases *)

(** The chat records a run emitted: speaker, flavor tier, message and
    damage, in order. *)
Definition chat_records (trace : list Effect)
    : list (Actor.t * option Z * option string * value) :=
  omap (fun e => match e with
                 | ChatMessage_create a flavor message _ damage _ _ =>
                     Some (a, flavor, message, damage)
                 | _ => None
                 end) trace.

(** The three effects of one target, as [process] issues them. *)
Definition target_effects (av : AffValue) (hooks : Hooks) (r : DamageRequest.t)
    (a : Actor.t) : list Effect :=
  apply_target r a (run_stages av hooks r a).

(** A value that is a rational, whatever its shape. *)
Definition finite (v : value) : Prop := exists q, JS.ToNumber v = Fin q.

(** The actor with another value behind its scale-incoming-damage flag. *)
Definition with_scale (a : Actor.t) (v : value) : Actor.t := {|
  Actor.name := Actor.name a;
  Actor.affinities := Actor.affinities a;
  Actor.bonuses := Actor.bonuses a;
  Actor.scaleIncomingDamage := v;
|}.

Module Cases.

(** A listener on the calculate hook that removes the result of every
    target called Golem. *)
Definition dropGolem : Hooks := {|
  DAMAGE_PIPELINE_COLLECT := fun c => c;
  DAMAGE_PIPELINE_CALCULATE := fun c =>
    if String.eqb (Actor.name (Context.actor c)) "Golem"
    then Context.set_result c Undefined
    else c;
|}.

(** Three targets, the second one a Golem. *)
Definition party : DamageRequest.t :=
  DamageRequest.constructor Sample.source
    (TArray [Sample.target 1; Sample.warded 0; Sample.target 2])
    (Sample.fire 10) ExtraDamageInfo.empty.

Definition shiftClick : ClickEvent :=
  {| shiftKey := true; ctrlKey := false; metaKey := false |}.

(** No source resolves to an actor. *)
Definition anonymous (uuid : option string) : option Actor.t := None.

Definition burning : Effects.ActiveEffect := {|
  Effects.id := "e1"; Effects.disabled := false; Effects.isTemporary := true;
  Effects.statuses := {[ "burning" ]};
|}.

Definition blessed : Effects.ActiveEffect := {|
  Effects.id := "e2"; Effects.disabled := false; Effects.isTemporary := false;
  Effects.statuses := ∅;
|}.

Definition dormant : Effects.ActiveEffect := {|
  Effects.id := "e3"; Effects.disabled := true; Effects.isTemporary := true;
  Effects.statuses := {[ "burning"; "slow" ]};
|}.

Definition burningStatus : Effects.StatusEffect := {|
  Effects.status_id := "burning";
  Effects.status_name := "FU.Burning";
  Effects.status_icon := "icons/svg/fire.svg";
|}.

End Cases.

(** ** Proof steps shared by the case analyses *)

(** Case analysis on every condition left in the goal. *)
Ltac case_ifs :=
  repeat match goal with
         | |- context [if ?b then _ else _] => destruct b eqn:?
         end.

(** Turn the index comparisons in the context into equations and close
    the cases that compare an index with itself. *)
Ltac eqb_facts :=
  repeat match goal with
         | E : (_ =? _)%Z = true |- _ => apply Z.eqb_eq in E
         | E : (?x =? ?x)%Z = false |- _ => rewrite Z.eqb_refl in E; discriminate E
         end.

(** As [eqb_facts], keeping the comparisons that failed as inequalities. *)
Ltac eqb_all :=
  repeat match goal with
         | E : (_ =? _)%Z = true |- _ => apply Z.eqb_eq in E
         | E : (_ =? _)%Z = false |- _ => apply Z.eqb_neq in E
         end.

(** * Properties *)

(** ** Arithmetic of values *)

Lemma Num_Fin_eq (x y : Qc) : (x == y)%Q -> Num (Fin x) = Num (Fin y).
Proof. intros H. do 2 f_equal. now apply Qc_is_canon. Qed.

Lemma nadd_assoc a b c : JS.nadd (JS.nadd a b) c = JS.nadd a (JS.nadd b c).
Proof. destruct a, b, c; simpl; try reflexivity. f_equal. ring. Qed.

Lemma nmul_assoc a b c : JS.nmul (JS.nmul a b) c = JS.nmul a (JS.nmul b c).
Proof. destruct a, b, c; simpl; try reflexivity. f_equal. ring. Qed.

Lemma nadd_0_r a : JS.nadd a (Fin 0) = a.
Proof. destruct a; simpl; try reflexivity. f_equal. ring. Qed.

Lemma nmul_1_r a : JS.nmul a (Fin 1) = a.
Proof. destruct a; simpl; try reflexivity. f_equal. ring. Qed.

Lemma ToNumber_of_Z_0 : JS.ToNumber (JS.of_Z 0) = Fin 0.
Proof. reflexivity. Qed.

Lemma ToNumber_of_Z_1 : JS.ToNumber (JS.of_Z 1) = Fin 1.
Proof. reflexivity. Qed.

(** Folding from the left is adding the separate sum. *)
Lemma fold_left_add (l : list value) (x : value) :
  JS.ToNumber (fold_left JS.add l x) = JS.nadd (JS.ToNumber x) (JS.ToNumber (sum l)).
Proof.
  revert x. induction l as [|v l IH]; intros x.
  - cbn [fold_left sum fold_right]. now rewrite ToNumber_of_Z_0, nadd_0_r.
  - cbn [fold_left sum fold_right]. rewrite IH. cbn [JS.add JS.ToNumber].
    apply nadd_assoc.
Qed.

Lemma fold_left_mul (l : list value) (x : value) :
  JS.ToNumber (fold_left JS.mul l x) = JS.nmul (JS.ToNumber x) (JS.ToNumber (product l)).
Proof.
  revert x. induction l as [|v l IH]; intros x.
  - cbn [fold_left product fold_right]. now rewrite ToNumber_of_Z_1, nmul_1_r.
  - cbn [fold_left product fold_right]. rewrite IH. cbn [JS.mul JS.ToNumber].
    apply nmul_assoc.
Qed.

(** With at least one multiplier the folded value is a number. *)
Lemma fold_left_mul_Num (l : list value) (x : value) :
  l <> [] -> exists n, fold_left JS.mul l x = Num n.
Proof.
  intros Hl. destruct l as [|v l]; [congruence|]. clear Hl. cbn [fold_left].
  assert (Hy : exists n, JS.mul x v = Num n) by (eexists; reflexivity).
  revert Hy. generalize (JS.mul x v). clear.
  induction l as [|w l IH]; intros z [n ->]; cbn [fold_left]; [eauto|].
  apply IH. eexists; reflexivity.
Qed.

(** ** The multiplier table *)

Lemma distinct_tiers_neq (av : AffValue) :
  distinct_tiers av ->
  vulnerability av <> none av /\ vulnerability av <> resistance av /\
  vulnerability av <> immunity av /\ vulnerability av <> absorption av /\
  none av <> resistance av /\ none av <> immunity av /\ none av <> absorption av /\
  resistance av <> immunity av /\ resistance av <> absorption av /\
  immunity av <> absorption av.
Proof.
  unfold distinct_tiers. rewrite !NoDup_cons, !not_elem_of_cons.
  intros H. repeat split; intros E; rewrite E in H; tauto.
Qed.

Lemma multiplier_table (av : AffValue) :
  distinct_tiers av ->
  affinityDamageModifier_at av (Some (vulnerability av)) = JS.of_Z 2 /\
  affinityDamageModifier_at av (Some (none av)) = JS.of_Z 1 /\
  affinityDamageModifier_at av (Some (resistance av)) = JS.of_Q (1 # 2) /\
  affinityDamageModifier_at av (Some (immunity av)) = JS.of_Z 0 /\
  affinityDamageModifier_at av (Some (absorption av)) = JS.of_Z (-1).
Proof.
  intros H. apply distinct_tiers_neq in H.
  destruct H as (? & ? & ? & ? & ? & ? & ? & ? & ? & ?).
  unfold affinityDamageModifier_at, affinityDamageModifier.
  repeat split; simplify_map_eq; reflexivity.
Qed.

(** An index that is none of the five has no multiplier. *)
Lemma multiplier_table_elsewhere (av : AffValue) (z : Z) :
  z <> vulnerability av -> z <> none av -> z <> resistance av ->
  z <> immunity av -> z <> absorption av ->
  affinityDamageModifier_at av (Some z) = Undefined.
Proof.
  intros. unfold affinityDamageModifier_at, affinityDamageModifier.
  simplify_map_eq. reflexivity.
Qed.

(** C4: whatever pairwise different indices the five tiers have, the table
    maps vulnerability to 2, none to 1, resistance to 0.5, immunity to 0 and
    absorption to -1; it takes no input from the request, the target or the
    hooks. *)
Theorem affinity_multipliers_fixed (av : AffValue) :
  distinct_tiers av ->
  affinityDamageModifier_at av (Some (vulnerability av)) = JS.of_Z 2 /\
  affinityDamageModifier_at av (Some (none av)) = JS.of_Z 1 /\
  affinityDamageModifier_at av (Some (resistance av)) = JS.of_Q (1 # 2) /\
  affinityDamageModifier_at av (Some (immunity av)) = JS.of_Z 0 /\
  affinityDamageModifier_at av (Some (absorption av)) = JS.of_Z (-1).
Proof. exact (multiplier_table av). Qed.

Lemma Sample_distinct : distinct_tiers Sample.affValue.
Proof.
  unfold distinct_tiers. apply (bool_decide_unpack _). vm_compute. exact I.
Defined.

Lemma affinity_multipliers_fixed_witness :
  distinct_tiers Sample.affValue /\
  affinityDamageModifier_at Sample.affValue (Some 1%Z) = JS.of_Q (1 # 2).
Proof.
  split; [exact Sample_distinct|].
  exact (proj1 (proj2 (proj2 (affinity_multipliers_fixed Sample.affValue Sample_distinct)))).
Defined.

(** ** The affinity resolver *)

Section Resolver.

Variable av : AffValue.
Variable c : Context.t.

Let extra := Context.extraDamageInfo c.
Let looked := lookupAffinity av c.
Let resolved := Context.affinity (resolveAffinity av c).

(** Each of the four checks keeps the tier or replaces it by [none]. *)
Lemma resolved_is_looked_or_none :
  resolved = Some looked \/ resolved = Some (none av).
Proof.
  subst resolved looked. unfold resolveAffinity.
  generalize (lookupAffinity av c). intros a.
  case_ifs; cbn; auto.
Qed.

Lemma resolved_none_stays : looked = none av -> resolved = Some (none av).
Proof.
  intros E. destruct resolved_is_looked_or_none as [H|H]; rewrite H; congruence.
Qed.

End Resolver.

(** C5: the resolved tier is the looked-up one or none, for every context;
    and a looked-up vulnerability, resistance, immunity or absorption whose
    ignore flag (or, for resistance and immunity, ignore trait) is set
    resolves to none. *)
Theorem ignore_only_downgrades (av : AffValue) (c : Context.t) :
  let extra := Context.extraDamageInfo c in
  let looked := lookupAffinity av c in
  let resolved := Context.affinity (resolveAffinity av c) in
  (resolved = Some looked \/ resolved = Some (none av)) /\
  (looked = vulnerability av -> ExtraDamageInfo.ignoreVulnerable extra = true ->
   resolved = Some (none av)) /\
  (looked = resistance av ->
   ExtraDamageInfo.ignoreResistance extra = true \/
     Traits.IgnoreResistance ∈ Context.traits c ->
   resolved = Some (none av)) /\
  (looked = immunity av ->
   ExtraDamageInfo.ignoreImmunities extra = true \/
     Traits.IgnoreImmunity ∈ Context.traits c ->
   resolved = Some (none av)) /\
  (looked = absorption av -> ExtraDamageInfo.ignoreAbsorption extra = true ->
   resolved = Some (none av)).
Proof.
  intros extra looked resolved.
  split; [apply resolved_is_looked_or_none|].
  assert (Hr : ExtraDamageInfo.ignoreResistance extra = true \/
               Traits.IgnoreResistance ∈ Context.traits c ->
               ExtraDamageInfo.ignoreResistance extra
               || bool_decide (Traits.IgnoreResistance ∈ Context.traits c) = true).
  { intros [->|H]; [reflexivity|]. rewrite (bool_decide_eq_true_2 _ H).
    apply orb_true_r. }
  assert (Hi : ExtraDamageInfo.ignoreImmunities extra = true \/
               Traits.IgnoreImmunity ∈ Context.traits c ->
               ExtraDamageInfo.ignoreImmunities extra
               || bool_decide (Traits.IgnoreImmunity ∈ Context.traits c) = true).
  { intros [->|H]; [reflexivity|]. rewrite (bool_decide_eq_true_2 _ H).
    apply orb_true_r. }
  subst resolved looked. unfold resolveAffinity. fold extra.
  generalize (lookupAffinity av c). intros a.
  repeat split; intros -> H; try apply Hr in H; try apply Hi in H; rewrite ?H;
    rewrite ?Z.eqb_refl;
    case_ifs; cbn; try reflexivity;
    eqb_facts; congruence.
Qed.

Lemma ignore_only_downgrades_witness :
  let c := Context.constructor
             (DamageRequest.with_traits (Sample.request 1 10 ExtraDamageInfo.empty)
                {[ Traits.IgnoreResistance ]})
             (Sample.target 1) in
  lookupAffinity Sample.affValue c = resistance Sample.affValue /\
  Traits.IgnoreResistance ∈ Context.traits c /\
  Context.affinity (resolveAffinity Sample.affValue c) = Some (none Sample.affValue).
Proof.
  intros c.
  assert (H1 : lookupAffinity Sample.affValue c = resistance Sample.affValue)
    by (vm_compute; reflexivity).
  assert (H2 : Traits.IgnoreResistance ∈ Context.traits c)
    by (apply (bool_decide_unpack _); vm_compute; exact I).
  split; [exact H1|]. split; [exact H2|].
  exact (proj1 (proj2 (proj2 (ignore_only_downgrades Sample.affValue c)))
           H1 (or_intror H2)).
Defined.

(** Scenario B of the specification: immunity met with the ignore-immunity
    trait resolves to none, with the message of an ignored immunity. *)
Example scenario_B_immunity_ignored :
  let c := resolveAffinity Sample.affValue
             (Context.constructor
                (DamageRequest.with_traits (Sample.request 2 10 ExtraDamageInfo.empty)
                   {[ Traits.IgnoreImmunity ]})
                (Sample.target 2)) in
  Context.affinity c = Some 0%Z /\
  Context.affinityMessage c = Some "FU.ChatApplyDamageImmuneIgnored".
Proof. vm_compute. split; reflexivity. Qed.

(** The message of every branch of the resolver, when the five indices are
    pairwise different. *)
Lemma resolveAffinity_message (av : AffValue) (c : Context.t) :
  distinct_tiers av ->
  let extra := Context.extraDamageInfo c in
  let looked := lookupAffinity av c in
  Context.affinityMessage (resolveAffinity av c) =
  Some (if Z.eqb looked (vulnerability av) then "FU.ChatApplyDamageVulnerable"
        else if Z.eqb looked (resistance av)
        then if ExtraDamageInfo.ignoreResistance extra
                || bool_decide (Traits.IgnoreResistance ∈ Context.traits c)
             then "FU.ChatApplyDamageResistantIgnored"
             else "FU.ChatApplyDamageResistant"
        else if Z.eqb looked (immunity av)
        then if ExtraDamageInfo.ignoreImmunities extra
                || bool_decide (Traits.IgnoreImmunity ∈ Context.traits c)
             then "FU.ChatApplyDamageImmuneIgnored"
             else "FU.ChatApplyDamageImmune"
        else if Z.eqb looked (absorption av)
        then if ExtraDamageInfo.ignoreAbsorption extra
             then "FU.ChatApplyDamageNormal"
             else "FU.ChatApplyDamageAbsorb"
        else "FU.ChatApplyDamageNormal").
Proof.
  intros Hd extra looked. apply distinct_tiers_neq in Hd.
  destruct Hd as (? & ? & ? & ? & ? & ? & ? & ? & ? & ?).
  subst looked. unfold resolveAffinity. fold extra.
  generalize (lookupAffinity av c). intros a.
  destruct (ExtraDamageInfo.ignoreVulnerable extra);
  destruct (ExtraDamageInfo.ignoreResistance extra
            || bool_decide (Traits.IgnoreResistance ∈ Context.traits c));
  destruct (ExtraDamageInfo.ignoreImmunities extra
            || bool_decide (Traits.IgnoreImmunity ∈ Context.traits c));
  destruct (ExtraDamageInfo.ignoreAbsorption extra);
  case_ifs; cbn; try reflexivity;
    eqb_facts; congruence.
Qed.

(** C8, at a target vulnerable to fire and a request that ignores
    vulnerability: the tier resolves to none, and the stored message is the
    vulnerable one, not the message stored for a target whose tier for fire
    is none. *)
Theorem ignored_vulnerability_message :
  let c := Context.constructor (Sample.request (-1) 10 Sample.ignoringVulnerable)
             (Sample.target (-1)) in
  let plain := Context.constructor (Sample.request 0 10 ExtraDamageInfo.empty)
                 (Sample.target 0) in
  lookupAffinity Sample.affValue c = vulnerability Sample.affValue /\
  ExtraDamageInfo.ignoreVulnerable (Context.extraDamageInfo c) = true /\
  Context.affinity (resolveAffinity Sample.affValue c) = Some (none Sample.affValue) /\
  Context.affinityMessage (resolveAffinity Sample.affValue c)
    = Some "FU.ChatApplyDamageVulnerable" /\
  Context.affinityMessage (resolveAffinity Sample.affValue plain)
    = Some "FU.ChatApplyDamageNormal".
Proof. vm_compute. repeat split; reflexivity. Qed.

(** The absorption branch next to it: an ignored absorption resolves to
    none and keeps the message of a normal application. *)
Example ignored_absorption_message :
  let e := {| ExtraDamageInfo.damageType := None;
              ExtraDamageInfo.damageBonus := Undefined;
              ExtraDamageInfo.extraDamage := Undefined;
              ExtraDamageInfo.hrZero := false;
              ExtraDamageInfo.ignoreVulnerable := false;
              ExtraDamageInfo.ignoreResistance := false;
              ExtraDamageInfo.ignoreImmunities := false;
              ExtraDamageInfo.ignoreAbsorption := true;
              ExtraDamageInfo.targets := TUndefined |} in
  let c := resolveAffinity Sample.affValue
             (Context.constructor (Sample.request 3 10 e) (Sample.target 3)) in
  Context.affinity c = Some (none Sample.affValue) /\
  Context.affinityMessage c = Some "FU.ChatApplyDamageNormal".
Proof. vm_compute. split; reflexivity. Qed.

(** The resolver assigns the tier and the message and nothing else. *)
Lemma resolveAffinity_frame (av : AffValue) (c : Context.t) :
  exists a msg, resolveAffinity av c = Context.set_affinity c a msg.
Proof.
  unfold resolveAffinity.
  generalize (lookupAffinity av c). intros a.
  destruct (ExtraDamageInfo.ignoreVulnerable (Context.extraDamageInfo c)).
  all: case_ifs; cbn; eauto.
Qed.

Lemma resolveAffinity_request (av : AffValue) (c : Context.t) :
  Context.request (resolveAffinity av c) = Context.request c.
Proof. destruct (resolveAffinity_frame av c) as (a & msg & ->). reflexivity. Qed.

(** ** The derived amount *)

(** Outside the hrZero branch, and inside it whenever [damageBonus] is a
    number, the constructor computes the amount the specification gives. *)
Lemma deriveAmount_as_specified (b : BaseDamageInfo.t) (e : ExtraDamageInfo.t) :
  ExtraDamageInfo.hrZero e = false \/
    (exists q, JS.ToNumber (ExtraDamageInfo.damageBonus e) = Fin q) ->
  DamageRequest.deriveAmount b e = amount_as_specified b e.
Proof.
  unfold DamageRequest.deriveAmount, amount_as_specified.
  intros [->|[q Hq]]; [reflexivity|].
  destruct (ExtraDamageInfo.hrZero e); [|reflexivity].
  f_equal. unfold JS.add. do 2 f_equal. unfold JS.or.
  destruct (ExtraDamageInfo.damageBonus e) as [| |[|x]]; try discriminate Hq;
    try reflexivity.
  cbn. destruct (Qc_eq_dec x 0%Qc) as [->|]; reflexivity.
Qed.

(** The hrZero branch leaves the base total out. *)
Lemma deriveAmount_hrZero_ignores_total (b b' : BaseDamageInfo.t) (e : ExtraDamageInfo.t) :
  ExtraDamageInfo.hrZero e = true ->
  BaseDamageInfo.modifierTotal b = BaseDamageInfo.modifierTotal b' ->
  DamageRequest.deriveAmount b e = DamageRequest.deriveAmount b' e.
Proof. unfold DamageRequest.deriveAmount. intros -> ->. reflexivity. Qed.

(** C7, at [{ hrZero: true, extraDamage: 2 }] over a base total of 10 with
    modifier total 3: the constructor adds the missing [damageBonus] as it
    is and stores [NaN], where the specified amount is 0 + 3 + 2 = 5; the
    other branch, on the same descriptor without hrZero, counts the missing
    bonus as 0. *)
Theorem hrZero_missing_bonus_amount :
  ExtraDamageInfo.hrZero Sample.hrZeroNoBonus = true /\
  ExtraDamageInfo.damageBonus Sample.hrZeroNoBonus = Undefined /\
  DamageRequest.amount
    (DamageRequest.constructor Sample.source (TArray [Sample.target 0])
       (Sample.fire 10) Sample.hrZeroNoBonus) = Num NaN /\
  amount_as_specified (Sample.fire 10) Sample.hrZeroNoBonus = JS.of_Z 5 /\
  DamageRequest.deriveAmount (Sample.fire 10)
    (ExtraDamageInfo.with_targets ExtraDamageInfo.empty TUndefined) = JS.of_Z 10.
Proof.
  repeat split; try reflexivity; vm_compute; apply Num_Fin_eq; reflexivity.
Qed.

(** ** The override short-circuit *)

(** A total override that passes the test of [overrideResult] becomes the
    result, and neither collector runs. *)
Lemma override_total_skips_collection (av : AffValue) (hooks : Hooks)
    (r : DamageRequest.t) (actor : Actor.t) :
  JS.truthy (Overrides.total (DamageRequest.overrides r)) = true ->
  let c := run_stages av hooks r actor in
  Context.result c = Overrides.total (DamageRequest.overrides r) /\
  Context.bonuses c = [] /\ Context.modifiers c = [].
Proof.
  intros H c. subst c. unfold run_stages, overrideResult.
  unfold Context.overrides. rewrite resolveAffinity_request. cbn [Context.request Context.constructor].
  rewrite H. destruct (resolveAffinity_frame av (Context.constructor r actor)) as (a & msg & ->).
  repeat split.
Qed.

(** C3, at a request whose override total is 0, 10 fire damage against a
    target resistant to fire: the test of [overrideResult] takes 0 for no
    override, the collectors and the calculator run, and the result is
    10 * 0.5 = 5 with the affinity multiplier collected. *)
Theorem override_total_zero_not_applied :
  let r := DamageRequest.with_overrides
             (Sample.request 1 10 ExtraDamageInfo.empty) Sample.totalZero in
  let c := run_stages Sample.affValue no_listeners r (Sample.target 1) in
  Overrides.total (DamageRequest.overrides r) = JS.of_Z 0 /\
  snd (overrideResult (resolveAffinity Sample.affValue
                         (Context.constructor r (Sample.target 1)))) = false /\
  Context.result c = JS.of_Z 5 /\
  Context.modifiers c = [("affinity", JS.of_Q (1 # 2))].
Proof.
  assert (H5 : Context.result
                 (run_stages Sample.affValue no_listeners
                    (DamageRequest.with_overrides
                       (Sample.request 1 10 ExtraDamageInfo.empty) Sample.totalZero)
                    (Sample.target 1)) = JS.of_Z 5).
  { vm_compute. apply Num_Fin_eq. reflexivity. }
  cbv zeta. rewrite H5. repeat split; reflexivity.
Qed.

(** ** The loop of [process] *)

Section Loop.

Variable av : AffValue.
Variable hooks : Hooks.
Variable r : DamageRequest.t.

(** The effects issued before the loop reaches a target stay in front. *)
Lemma process_targets_app (actors : list Actor.t) (updates : list Effect) :
  process_targets av hooks r actors updates =
  (updates ++ fst (process_targets av hooks r actors []),
   snd (process_targets av hooks r actors [])).
Proof.
  revert updates. induction actors as [|a actors IH]; intros updates.
  - cbn. now rewrite app_nil_r.
  - cbn [process_targets].
    destruct (Context.result (run_stages av hooks r a)).
    + cbn. now rewrite app_nil_r.
    + rewrite IH. rewrite (IH ([] ++ _)). cbn [fst snd]. now rewrite app_assoc.
    + rewrite IH. rewrite (IH ([] ++ _)). cbn [fst snd]. now rewrite app_assoc.
Qed.

(** The loop handles a prefix of the list, target by target, and all of it
    when it runs to the end. *)
Lemma process_targets_prefix (actors : list Actor.t) :
  exists n,
    fst (process_targets av hooks r actors []) =
      flat_map (fun a => apply_target r a (run_stages av hooks r a))
        (take n actors) /\
    (snd (process_targets av hooks r actors []) = Resolved -> n = length actors).
Proof.
  induction actors as [|a actors (n & IH1 & IH2)].
  - exists 0. split; reflexivity.
  - cbn [process_targets].
    destruct (Context.result (run_stages av hooks r a)) eqn:E.
    + exists 0. split; [reflexivity|]. discriminate.
    + rewrite process_targets_app. exists (S n). cbn [fst snd take flat_map length].
      rewrite IH1. split; [reflexivity|]. intros H. f_equal. now apply IH2.
    + rewrite process_targets_app. exists (S n). cbn [fst snd take flat_map length].
      rewrite IH1. split; [reflexivity|]. intros H. f_equal. now apply IH2.
Qed.

Lemma mutated_flat_map (l : list Actor.t) :
  mutated (flat_map (fun a => apply_target r a (run_stages av hooks r a)) l) = l.
Proof. induction l as [|a l IH]; [reflexivity|]. cbn. f_equal. exact IH. Qed.

Lemma reported_flat_map (l : list Actor.t) :
  reported (flat_map (fun a => apply_target r a (run_stages av hooks r a)) l) = l.
Proof. induction l as [|a l IH]; [reflexivity|]. cbn. f_equal. exact IH. Qed.

Lemma pool_updates_flat_map (l : list Actor.t) :
  pool_updates (flat_map (fun a => apply_target r a (run_stages av hooks r a)) l)
  = map (fun a => (a, JS.neg (Context.result (run_stages av hooks r a)))) l.
Proof. induction l as [|a l IH]; [reflexivity|]. cbn. f_equal. exact IH. Qed.

(** A request that passes [validate] has an array of targets, and
    [process] is the hook followed by the loop over it. *)
Lemma process_valid :
  falsy_result (DamageRequest.validate r) = false ->
  exists actors,
    DamageRequest.targets r = TArray actors /\
    process av hooks r =
      (Hook_DAMAGE_APPLY_BEFORE r :: fst (process_targets av hooks r actors []),
       snd (process_targets av hooks r actors [])).
Proof.
  unfold process, DamageRequest.validate. intros H. rewrite H.
  destruct (Targets_truthy (DamageRequest.allTargets r)); [|discriminate H].
  destruct (DamageRequest.targets r) as [| |actors|b]; try discriminate H.
  exists actors. split; [reflexivity|]. now rewrite process_targets_app.
Qed.

End Loop.

(** An array of targets is all [validate] asks for. *)
Lemma array_targets_valid (r : DamageRequest.t) (actors : list Actor.t) :
  DamageRequest.targets r = TArray actors ->
  falsy_result (DamageRequest.validate r) = false.
Proof.
  intros Ha. unfold DamageRequest.validate, DamageRequest.allTargets. rewrite Ha.
  destruct (Targets_truthy (ExtraDamageInfo.targets (DamageRequest.extraDamageInfo r)))
    eqn:E; rewrite ?E; reflexivity.
Qed.

(** ** Validation *)

Lemma allTargets_falsy (r : DamageRequest.t) :
  Targets_truthy (DamageRequest.allTargets r) = false ->
  isArray (DamageRequest.targets r) = false.
Proof.
  unfold DamageRequest.allTargets.
  destruct (Targets_truthy (ExtraDamageInfo.targets (DamageRequest.extraDamageInfo r))) eqn:E.
  - congruence.
  - destruct (DamageRequest.targets r); cbn; congruence.
Qed.

(** C6: [validate] returns something falsy (nothing at all when
    [allTargets] is missing, [false] when [targets] is not an array)
    exactly when [allTargets] is absent or [targets] is not an array; then
    [process] rejects having issued nothing, no hook call, no pool update
    and no chat record; and in every other case it does not reject the
    request as invalid. *)
Theorem invalid_request_rejected_untouched (av : AffValue) (hooks : Hooks)
    (r : DamageRequest.t) :
  (falsy_result (DamageRequest.validate r) = true <->
   absent (DamageRequest.allTargets r) \/ isArray (DamageRequest.targets r) = false) /\
  (falsy_result (DamageRequest.validate r) = true ->
   process av hooks r = ([], Rejected "Request was not valid")) /\
  (falsy_result (DamageRequest.validate r) = false ->
   forall reason, snd (process av hooks r) <> Rejected reason).
Proof.
  split; [|split].
  - unfold DamageRequest.validate, absent. split.
    + destruct (Targets_truthy (DamageRequest.allTargets r)) eqn:E; cbn.
      * destruct (isArray (DamageRequest.targets r)); cbn; [discriminate|auto].
      * intros _. right. now apply allTargets_falsy.
    + intros [[->| ->]|H]; try reflexivity.
      destruct (Targets_truthy (DamageRequest.allTargets r)); cbn; [|reflexivity].
      rewrite H. reflexivity.
  - unfold process. intros ->. reflexivity.
  - unfold process. intros ->.
    destruct (DamageRequest.targets r) as [| |actors|b]; cbn; try discriminate.
    intros reason. rewrite process_targets_app. cbn [snd].
    destruct (process_targets_prefix av hooks r actors) as (n & _ & _).
    clear n. induction actors as [|a actors IH]; cbn; [discriminate|].
    destruct (Context.result (run_stages av hooks r a)); [discriminate| |].
    + rewrite process_targets_app. exact IH.
    + rewrite process_targets_app. exact IH.
Qed.

Lemma invalid_request_rejected_untouched_witness :
  let r := DamageRequest.constructor Sample.source TUndefined (Sample.fire 10)
             ExtraDamageInfo.empty in
  falsy_result (DamageRequest.validate r) = true /\
  process Sample.affValue no_listeners r = ([], Rejected "Request was not valid").
Proof.
  intros r.
  assert (H : falsy_result (DamageRequest.validate r) = true) by reflexivity.
  split; [exact H|].
  exact (proj1 (proj2 (invalid_request_rejected_untouched
                         Sample.affValue no_listeners r)) H).
Defined.

(** ** The target-list override *)

(** C9: a target-list override in the extra-damage descriptor is what
    [allTargets] returns when it is truthy, and leaves [request.targets]
    alone; the actors [process] mutates and reports on are a prefix of
    [request.targets], in order, and all of it when the promise resolves;
    and when [request.targets] is not an array nothing is issued, whatever
    the override. *)
Theorem target_override_does_not_redirect (av : AffValue) (hooks : Hooks)
    (r : DamageRequest.t) (ts : Targets) :
  let r' := override_targets r ts in
  DamageRequest.allTargets r' =
    (if Targets_truthy ts then ts else DamageRequest.targets r) /\
  DamageRequest.targets r' = DamageRequest.targets r /\
  (forall actors, DamageRequest.targets r = TArray actors ->
     exists n,
       mutated (fst (process av hooks r')) = take n actors /\
       reported (fst (process av hooks r')) = take n actors /\
       (snd (process av hooks r') = Resolved -> n = length actors)) /\
  (isArray (DamageRequest.targets r) = false -> fst (process av hooks r') = []).
Proof.
  intros r'. split; [reflexivity|]. split; [reflexivity|]. split.
  - intros actors Ha.
    assert (Hv : falsy_result (DamageRequest.validate r') = false)
      by (apply (array_targets_valid r' actors); exact Ha).
    destruct (process_valid av hooks r' Hv) as (actors' & Ha' & ->).
    cbn in Ha'. rewrite Ha in Ha'. injection Ha' as <-.
    destruct (process_targets_prefix av hooks r' actors) as (n & Hn & Hres).
    exists n. cbn [fst snd]. rewrite Hn.
    change (mutated (?e :: ?l)) with (mutated l).
    change (reported (?e :: ?l)) with (reported l).
    rewrite mutated_flat_map, reported_flat_map. auto.
  - intros Hna. unfold process, DamageRequest.validate.
    change (DamageRequest.targets r') with (DamageRequest.targets r).
    rewrite Hna.
    destruct (Targets_truthy (DamageRequest.allTargets r')); reflexivity.
Qed.

Lemma target_override_does_not_redirect_witness :
  let r := Sample.request 1 10 ExtraDamageInfo.empty in
  let elsewhere := TArray [Sample.target 2; Sample.target 3] in
  DamageRequest.targets r = TArray [Sample.target 1] /\
  exists n,
    mutated (fst (process Sample.affValue no_listeners (override_targets r elsewhere)))
      = take n [Sample.target 1] /\
    reported (fst (process Sample.affValue no_listeners (override_targets r elsewhere)))
      = take n [Sample.target 1] /\
    (snd (process Sample.affValue no_listeners (override_targets r elsewhere)) = Resolved ->
     n = length [Sample.target 1]).
Proof.
  intros r elsewhere.
  assert (H : DamageRequest.targets r = TArray [Sample.target 1]) by reflexivity.
  split; [exact H|].
  exact (proj1 (proj2 (proj2 (target_override_does_not_redirect
                                Sample.affValue no_listeners r elsewhere)))
           [Sample.target 1] H).
Defined.

(** The run of the witness: two other actors in the override, and the one
    target of the request is the one mutated and reported on. *)
Example override_elsewhere_runs_on_targets :
  let r := override_targets (Sample.request 1 10 ExtraDamageInfo.empty)
             (TArray [Sample.target 2; Sample.target 3]) in
  snd (process Sample.affValue no_listeners r) = Resolved /\
  mutated (fst (process Sample.affValue no_listeners r)) = [Sample.target 1] /\
  reported (fst (process Sample.affValue no_listeners r)) = [Sample.target 1].
Proof. vm_compute. repeat split; reflexivity. Qed.

(** ** Application to the pool *)

Lemma neg_positive (q : Qc) :
  (0 < q)%Qc -> exists d, JS.neg (Num (Fin q)) = Num (Fin d) /\ (d < 0)%Qc.
Proof.
  intros H. exists (- q)%Qc. split; [reflexivity|].
  apply Qclt_minus_iff. rewrite Qcopp_involutive, Qcplus_0_l. exact H.
Qed.

Lemma neg_absorbed (q : Qc) :
  JS.neg (JS.mul (Num (Fin q)) (JS.of_Z (-1))) = Num (Fin q).
Proof.
  unfold JS.neg, JS.mul. cbn [JS.ToNumber JS.of_Z JS.nmul JS.nneg].
  do 2 f_equal. change (Q2Qc (inject_Z (-1))) with (- 1)%Qc. ring.
Qed.

(** C2: when [process] resolves, the hit-point updates it issued are, target
    by target, the negated result of that target's context; a positive
    result gives a negative delta; a positive amount times the absorption
    multiplier gives the amount back as a positive delta; and 8 fire damage
    against a target absorbing fire gives result -8 and delta +8. *)
Theorem pool_delta_is_negated_result (av : AffValue) (hooks : Hooks)
    (r : DamageRequest.t) (actors : list Actor.t) :
  (DamageRequest.targets r = TArray actors ->
   exists n,
     pool_updates (fst (process av hooks r)) =
       map (fun a => (a, JS.neg (Context.result (run_stages av hooks r a))))
         (take n actors) /\
     (snd (process av hooks r) = Resolved -> n = length actors)) /\
  (forall q, (0 < q)%Qc ->
     exists d, JS.neg (Num (Fin q)) = Num (Fin d) /\ (d < 0)%Qc) /\
  (forall q, (0 < q)%Qc -> distinct_tiers av ->
     JS.neg (JS.mul (Num (Fin q)) (affinityDamageModifier_at av (Some (absorption av))))
       = Num (Fin q)) /\
  (let r8 := Sample.request 3 8 ExtraDamageInfo.empty in
   DamageRequest.amount r8 = JS.of_Z 8 /\
   Context.affinity (run_stages Sample.affValue no_listeners r8 (Sample.target 3))
     = Some (absorption Sample.affValue) /\
   Context.result (run_stages Sample.affValue no_listeners r8 (Sample.target 3))
     = JS.of_Z (-8) /\
   pool_updates (fst (process Sample.affValue no_listeners r8))
     = [(Sample.target 3, JS.of_Z 8)]).
Proof.
  split; [|split; [|split]].
  - intros Ha.
    destruct (process_valid av hooks r (array_targets_valid r actors Ha))
      as (actors' & Ha' & ->).
    rewrite Ha in Ha'. injection Ha' as <-. cbn [fst snd].
    destruct (process_targets_prefix av hooks r actors) as (n & Hn & Hlen).
    exists n. split; [|exact Hlen]. rewrite Hn.
    change (pool_updates (?e :: ?l)) with (pool_updates l).
    apply pool_updates_flat_map.
  - exact neg_positive.
  - intros q _ Hd.
    destruct (multiplier_table av Hd) as (_ & _ & _ & _ & ->). apply neg_absorbed.
  - assert (H8 : Context.result
                   (run_stages Sample.affValue no_listeners
                      (Sample.request 3 8 ExtraDamageInfo.empty) (Sample.target 3))
                 = JS.of_Z (-8)).
    { vm_compute. apply Num_Fin_eq. reflexivity. }
    cbv zeta. repeat split; try reflexivity; exact H8.
Qed.

Lemma pool_delta_is_negated_result_witness :
  let r := Sample.request 1 10 ExtraDamageInfo.empty in
  DamageRequest.targets r = TArray [Sample.target 1] /\
  exists n,
    pool_updates (fst (process Sample.affValue no_listeners r)) =
      map (fun a => (a, JS.neg (Context.result
                                  (run_stages Sample.affValue no_listeners r a))))
        (take n [Sample.target 1]) /\
    (snd (process Sample.affValue no_listeners r) = Resolved ->
     n = length [Sample.target 1]).
Proof.
  intros r.
  assert (H1 : DamageRequest.targets r = TArray [Sample.target 1]) by reflexivity.
  split; [exact H1|].
  exact (proj1 (pool_delta_is_negated_result Sample.affValue no_listeners r
                  [Sample.target 1]) H1).
Defined.

(** Scenario A of the specification: 10 fire damage against a target
    resistant to fire gives result 5 and a pool delta of -5. *)
Example scenario_A_resistance :
  let r := Sample.request 1 10 ExtraDamageInfo.empty in
  Context.result (run_stages Sample.affValue no_listeners r (Sample.target 1))
    = JS.of_Z 5 /\
  pool_updates (fst (process Sample.affValue no_listeners r))
    = [(Sample.target 1, JS.of_Z (-5))].
Proof.
  split.
  - vm_compute. apply Num_Fin_eq. reflexivity.
  - vm_compute. reflexivity.
Qed.

(** ** Every target gets a result *)

Lemma truthy_Num (v : value) : JS.truthy v = true -> exists n, v = Num n.
Proof. destruct v as [| |n]; try discriminate. eauto. Qed.

Lemma fold_left_add_Num (l : list value) (n : number) :
  exists n', fold_left JS.add l (Num n) = Num n'.
Proof.
  revert n. induction l as [|v l IH]; intros n; cbn [fold_left]; [eauto|].
  apply IH.
Qed.

Lemma fold_result_Num (n : number) (bonuses modifiers : JS.Map) :
  exists n', fold_result (Num n) bonuses modifiers = Num n'.
Proof.
  unfold fold_result.
  destruct (fold_left_add_Num (JS.values bonuses) n) as (m & ->).
  generalize (JS.values modifiers). intros l. revert m.
  induction l as [|v l IH]; intros m; cbn [fold_left]; [eauto|]. apply IH.
Qed.

Lemma collectIncrements_request (c : Context.t) :
  Context.request (collectIncrements c) = Context.request c.
Proof.
  unfold collectIncrements.
  destruct (Context.sourceActor c) as [s|]; [destruct (Actor.bonuses s)|];
    cbn; destruct (Actor.bonuses (Context.actor c)); reflexivity.
Qed.

Lemma collectIncrements_frame (c : Context.t) :
  Context.actor (collectIncrements c) = Context.actor c /\
  Context.modifiers (collectIncrements c) = Context.modifiers c /\
  Context.affinity (collectIncrements c) = Context.affinity c.
Proof.
  unfold collectIncrements.
  destruct (Context.sourceActor c) as [s|]; [destruct (Actor.bonuses s)|];
    cbn; destruct (Actor.bonuses (Context.actor c)); repeat split.
Qed.

Section Results.

Variable av : AffValue.
Variable hooks : Hooks.

Lemma run_stages_result_Num (r : DamageRequest.t) (a : Actor.t) :
  hooks_keep_numbers hooks ->
  (exists n, DamageRequest.amount r = Num n) ->
  exists n, Context.result (run_stages av hooks r a) = Num n.
Proof.
  intros [Hcollect Hcalc] [n Hn]. unfold run_stages, overrideResult.
  set (c0 := resolveAffinity av (Context.constructor r a)).
  destruct (JS.truthy (Overrides.total (Context.overrides c0))) eqn:E.
  - apply truthy_Num in E. exact E.
  - unfold calculateResult, collectMultipliers.
    match goal with
    | |- context [DAMAGE_PIPELINE_COLLECT hooks ?c] =>
        assert (Hc : Context.amount c = Num n); [|set (c1 := c) in *]
    end.
    { unfold Context.amount.
      transitivity (DamageRequest.amount (Context.request (collectIncrements c0))).
      - destruct (JS.truthy (Actor.scaleIncomingDamage
                               (Context.actor (collectIncrements c0)))); reflexivity.
      - rewrite collectIncrements_request. subst c0.
        rewrite resolveAffinity_request. exact Hn. }
    destruct (Hcollect c1 n Hc) as (n1 & H1). rewrite H1.
    destruct (fold_result_Num n1
                (Context.bonuses (DAMAGE_PIPELINE_COLLECT hooks c1))
                (Context.modifiers (DAMAGE_PIPELINE_COLLECT hooks c1))) as (n2 & H2).
    rewrite H2. apply (Hcalc _ n2). reflexivity.
Qed.

Lemma process_targets_resolved (r : DamageRequest.t) (actors : list Actor.t) :
  (forall a, a ∈ actors -> exists n, Context.result (run_stages av hooks r a) = Num n) ->
  snd (process_targets av hooks r actors []) = Resolved.
Proof.
  induction actors as [|a actors IH]; intros H; [reflexivity|].
  cbn [process_targets].
  destruct (H a) as (n & ->); [apply list_elem_of_here|].
  rewrite process_targets_app. cbn [snd]. apply IH.
  intros a' Ha'. apply H. now apply list_elem_of_further.
Qed.

End Results.

Lemma no_listeners_keep_numbers : hooks_keep_numbers no_listeners.
Proof. split; intros c n H; exists n; exact H. Defined.

Lemma deriveAmount_Num (b : BaseDamageInfo.t) (e : ExtraDamageInfo.t) :
  exists n, DamageRequest.deriveAmount b e = Num n.
Proof.
  unfold DamageRequest.deriveAmount.
  destruct (ExtraDamageInfo.hrZero e); eexists; reflexivity.
Qed.

(** C10: for a request as its constructor builds it, with whatever traits
    and overrides were assigned afterwards, and hooks that leave a numeric
    amount and a numeric result numeric: if the request passes [validate]
    then every target's context ends the stages with a number as its
    result, and [process] resolves, so it never reaches the throw. *)
Theorem every_target_gets_a_result (av : AffValue) (hooks : Hooks)
    (src : SourceInfo.t) (tgts : Targets) (b : BaseDamageInfo.t)
    (e : ExtraDamageInfo.t) (traits : gset string) (o : Overrides.t) :
  let r := DamageRequest.with_overrides
             (DamageRequest.with_traits (DamageRequest.constructor src tgts b e) traits) o in
  hooks_keep_numbers hooks ->
  falsy_result (DamageRequest.validate r) = false ->
  (forall a, exists n, Context.result (run_stages av hooks r a) = Num n) /\
  snd (process av hooks r) = Resolved.
Proof.
  intros r Hh Hv.
  assert (Hall : forall a, exists n, Context.result (run_stages av hooks r a) = Num n).
  { intros a. apply run_stages_result_Num; [exact Hh|]. apply deriveAmount_Num. }
  split; [exact Hall|].
  destruct (process_valid av hooks r Hv) as (actors & _ & ->). cbn [snd].
  apply process_targets_resolved. intros a _. apply Hall.
Qed.

Lemma every_target_gets_a_result_witness :
  let r := DamageRequest.with_overrides
             (DamageRequest.with_traits
                (DamageRequest.constructor Sample.source (TArray [Sample.target 2])
                   (Sample.fire 10) ExtraDamageInfo.empty)
                {[ Traits.IgnoreResistance ]})
             Overrides.empty in
  hooks_keep_numbers no_listeners /\
  falsy_result (DamageRequest.validate r) = false /\
  (forall a, exists n, Context.result (run_stages Sample.affValue no_listeners r a) = Num n) /\
  snd (process Sample.affValue no_listeners r) = Resolved.
Proof.
  intros r.
  assert (Hv : falsy_result (DamageRequest.validate r) = false) by reflexivity.
  split; [exact no_listeners_keep_numbers|]. split; [exact Hv|].
  exact (every_target_gets_a_result Sample.affValue no_listeners Sample.source
           (TArray [Sample.target 2]) (Sample.fire 10) ExtraDamageInfo.empty
           {[ Traits.IgnoreResistance ]} Overrides.empty
           no_listeners_keep_numbers Hv).
Defined.

(** ** The calculated result *)

Lemma get_set_eq (m : JS.Map) (k : string) (v : value) :
  JS.get (JS.set m k v) k = Some v.
Proof.
  induction m as [|[k' v'] m IH]; cbn.
  - now rewrite String.eqb_refl.
  - destruct (String.eqb k' k) eqn:E; cbn.
    + now rewrite String.eqb_refl.
    + now rewrite E.
Qed.

Lemma get_elem_of (m : JS.Map) (k : string) (v : value) :
  JS.get m k = Some v -> (k, v) ∈ m.
Proof.
  induction m as [|[k' v'] m IH]; cbn; [discriminate|].
  destruct (String.eqb k' k) eqn:E.
  - apply String.eqb_eq in E. intros [= ->]. subst. apply list_elem_of_here.
  - intros H. apply list_elem_of_further. now apply IH.
Qed.

(** With a multiplier in the map, the two loops compute the sum of the
    amount and the bonuses, times the product of the multipliers. *)
Lemma fold_result_formula (amount : value) (bonuses modifiers : JS.Map) :
  modifiers <> [] ->
  fold_result amount bonuses modifiers =
  JS.mul (JS.add amount (sum (JS.values bonuses))) (product (JS.values modifiers)).
Proof.
  intros Hm. unfold fold_result.
  assert (Hv : JS.values modifiers <> []) by (destruct modifiers; [congruence|discriminate]).
  destruct (fold_left_mul_Num (JS.values modifiers)
              (fold_left JS.add (JS.values bonuses) amount) Hv) as (n & Hn).
  rewrite Hn. unfold JS.mul, JS.add. cbn [JS.ToNumber]. f_equal.
  change n with (JS.ToNumber (Num n)). rewrite <- Hn.
  now rewrite fold_left_mul, fold_left_add.
Qed.

(** C1: when the override path is not taken and the listeners only add to
    what was collected, the result of a target's context is its amount plus
    the sum of its bonuses, times the product of its modifiers, and the
    modifiers hold, under [affinity], the multiplier of the tier the resolver
    gave the target. *)
Theorem result_is_sum_times_product (av : AffValue) (hooks : Hooks)
    (r : DamageRequest.t) (actor : Actor.t) :
  hooks_keep_collected hooks ->
  JS.truthy (Overrides.total (DamageRequest.overrides r)) = false ->
  let c := run_stages av hooks r actor in
  let tier := Context.affinity (resolveAffinity av (Context.constructor r actor)) in
  Context.result c =
    JS.mul (JS.add (Context.amount c) (sum (JS.values (Context.bonuses c))))
           (product (JS.values (Context.modifiers c))) /\
  JS.get (Context.modifiers c) "affinity" = Some (affinityDamageModifier_at av tier) /\
  ("affinity", affinityDamageModifier_at av tier) ∈ Context.modifiers c.
Proof.
  intros [Hcollect Hcalc] Ht c tier.
  assert (Hget : JS.get (Context.modifiers c) "affinity"
                 = Some (affinityDamageModifier_at av tier)).
  { subst c. unfold run_stages, overrideResult, Context.overrides.
    rewrite resolveAffinity_request. cbn [Context.request Context.constructor].
    rewrite Ht. unfold calculateResult.
    match goal with
    | |- context [DAMAGE_PIPELINE_CALCULATE hooks ?x] =>
        destruct (Hcalc x) as (_ & _ & _ & ->)
    end.
    cbn [Context.modifiers Context.set_result].
    unfold collectMultipliers. apply Hcollect.
    destruct (collectIncrements_frame
                (resolveAffinity av (Context.constructor r actor))) as (_ & _ & Ha).
    destruct (JS.truthy (Actor.scaleIncomingDamage _));
      cbn [Context.modifiers Context.set_modifier Context.affinity];
      rewrite get_set_eq, Ha; reflexivity. }
  split; [|split; [exact Hget|now apply get_elem_of]].
  assert (Hne : Context.modifiers c <> []).
  { intros E. rewrite E in Hget. discriminate Hget. }
  revert Hne. subst c. unfold run_stages, overrideResult, Context.overrides.
  rewrite resolveAffinity_request. cbn [Context.request Context.constructor].
  rewrite Ht. unfold calculateResult.
  match goal with
  | |- context [DAMAGE_PIPELINE_CALCULATE hooks ?x] =>
      destruct (Hcalc x) as (-> & -> & -> & ->)
  end.
  cbn [Context.result Context.amount Context.bonuses Context.modifiers
       Context.request Context.set_result].
  apply fold_result_formula.
Qed.

Lemma no_listeners_keep_collected : hooks_keep_collected no_listeners.
Proof. split; [intros c v H; exact H|]. intros c. repeat split. Defined.

Lemma result_is_sum_times_product_witness :
  let r := Sample.cast 1 10 in
  let c := run_stages Sample.affValue no_listeners r (Sample.warded 1) in
  hooks_keep_collected no_listeners /\
  JS.truthy (Overrides.total (DamageRequest.overrides r)) = false /\
  Context.result c =
    JS.mul (JS.add (Context.amount c) (sum (JS.values (Context.bonuses c))))
           (product (JS.values (Context.modifiers c))).
Proof.
  intros r c.
  assert (Ht : JS.truthy (Overrides.total (DamageRequest.overrides r)) = false)
    by reflexivity.
  split; [exact no_listeners_keep_collected|]. split; [exact Ht|].
  exact (proj1 (result_is_sum_times_product Sample.affValue no_listeners r
                  (Sample.warded 1) no_listeners_keep_collected Ht)).
Defined.

(** Scenario E of the specification, and the same bonuses against a
    resistant target: the bonuses add up to 6, the result is (10 + 6) * 1 =
    16 without an affinity and (10 + 6) * 0.5 = 8 with resistance, the
    multiplier applying to the bonuses too. *)
Example scenario_E_bonuses :
  sum (JS.values (Context.bonuses
         (run_stages Sample.affValue no_listeners (Sample.cast 0 10) (Sample.warded 0))))
    = JS.of_Z 6 /\
  Context.result
    (run_stages Sample.affValue no_listeners (Sample.cast 0 10) (Sample.warded 0))
    = JS.of_Z 16 /\
  Context.result
    (run_stages Sample.affValue no_listeners (Sample.cast 1 10) (Sample.warded 1))
    = JS.of_Z 8.
Proof. repeat split; vm_compute; apply Num_Fin_eq; reflexivity. Qed.

(** Scenario D of the specification: an override total of 99 is the result,
    whatever the affinity and the bonuses. *)
Example scenario_D_override :
  let r := DamageRequest.with_overrides (Sample.cast 1 10)
             {| Overrides.affinity := None; Overrides.total := JS.of_Z 99 |} in
  Context.result (run_stages Sample.affValue no_listeners r (Sample.warded 1))
    = JS.of_Z 99.
Proof. vm_compute. reflexivity. Qed.

(** * Further properties of the pipeline *)

(** ** Traits from the click *)

Lemma resolved_avoids_resistance (av : AffValue) (c : Context.t) :
  none av <> resistance av ->
  ExtraDamageInfo.ignoreResistance (Context.extraDamageInfo c) = true \/
    Traits.IgnoreResistance ∈ Context.traits c ->
  Context.affinity (resolveAffinity av c) <> Some (resistance av).
Proof.
  intros Hn H.
  assert (Hb : ExtraDamageInfo.ignoreResistance (Context.extraDamageInfo c)
               || bool_decide (Traits.IgnoreResistance ∈ Context.traits c) = true).
  { destruct H as [->|H]; [reflexivity|]. rewrite (bool_decide_eq_true_2 _ H).
    apply orb_true_r. }
  unfold resolveAffinity. rewrite Hb.
  generalize (lookupAffinity av c). intros a.
  destruct (ExtraDamageInfo.ignoreVulnerable (Context.extraDamageInfo c)).
  all: case_ifs; cbn; eqb_all; congruence.
Qed.

Lemma resolved_avoids_immunity (av : AffValue) (c : Context.t) :
  none av <> immunity av ->
  ExtraDamageInfo.ignoreImmunities (Context.extraDamageInfo c) = true \/
    Traits.IgnoreImmunity ∈ Context.traits c ->
  Context.affinity (resolveAffinity av c) <> Some (immunity av).
Proof.
  intros Hn H.
  assert (Hb : ExtraDamageInfo.ignoreImmunities (Context.extraDamageInfo c)
               || bool_decide (Traits.IgnoreImmunity ∈ Context.traits c) = true).
  { destruct H as [->|H]; [reflexivity|]. rewrite (bool_decide_eq_true_2 _ H).
    apply orb_true_r. }
  unfold resolveAffinity. rewrite Hb.
  generalize (lookupAffinity av c). intros a.
  destruct (ExtraDamageInfo.ignoreVulnerable (Context.extraDamageInfo c)).
  all: case_ifs; cbn; eqb_all; congruence.
Qed.

Section ClickTraits.

Variable resolveSource : option string -> option Actor.t.
Variable event : ClickEvent.
Variable targets : Targets.
Variable sourceUuid : option string.
Variable sourceName : string.
Variable b : BaseDamageInfo.t.
Variable e : ExtraDamageInfo.t.

Let r := applicationRequest resolveSource event targets sourceUuid sourceName b e.

Lemma click_resistance_trait :
  Traits.IgnoreResistance ∈ DamageRequest.traits r <-> shiftKey event = true.
Proof.
  subst r. unfold applicationRequest.
  destruct (shiftKey event); [destruct (ctrlKey event || metaKey event)|]; cbn;
    unfold Traits.IgnoreResistance, Traits.IgnoreImmunity;
    rewrite ?elem_of_union, ?elem_of_singleton, ?elem_of_empty;
    intuition (try discriminate; auto).
Qed.

Lemma click_immunity_trait :
  Traits.IgnoreImmunity ∈ DamageRequest.traits r <->
  shiftKey event = true /\ (ctrlKey event = true \/ metaKey event = true).
Proof.
  subst r. unfold applicationRequest.
  destruct (shiftKey event), (ctrlKey event), (metaKey event); cbn;
    unfold Traits.IgnoreResistance, Traits.IgnoreImmunity;
    rewrite ?elem_of_union, ?elem_of_singleton, ?elem_of_empty;
    intuition (try discriminate; auto).
Qed.

End ClickTraits.

(** X1: the request built for a click carries ignore-resistance exactly
    when shift is held and ignore-immunity exactly when shift and ctrl or
    meta are held, so ctrl without shift adds nothing; and with the five
    indices pairwise different, a shift click never leaves any target
    resistant, and a shift click with ctrl or meta never leaves one immune
    either. *)
Theorem click_modifiers_set_traits (av : AffValue)
    (resolveSource : option string -> option Actor.t) (event : ClickEvent)
    (targets : Targets) (sourceUuid : option string) (sourceName : string)
    (b : BaseDamageInfo.t) (e : ExtraDamageInfo.t) :
  let r := applicationRequest resolveSource event targets sourceUuid sourceName b e in
  (Traits.IgnoreResistance ∈ DamageRequest.traits r <-> shiftKey event = true) /\
  (Traits.IgnoreImmunity ∈ DamageRequest.traits r <->
   shiftKey event = true /\ (ctrlKey event = true \/ metaKey event = true)) /\
  (distinct_tiers av -> shiftKey event = true ->
   forall a, Context.affinity (resolveAffinity av (Context.constructor r a))
             <> Some (resistance av)) /\
  (distinct_tiers av -> shiftKey event = true ->
   ctrlKey event = true \/ metaKey event = true ->
   forall a, Context.affinity (resolveAffinity av (Context.constructor r a))
             <> Some (immunity av)).
Proof.
  intros r.
  pose proof (click_resistance_trait resolveSource event targets sourceUuid
                sourceName b e) as Hres.
  pose proof (click_immunity_trait resolveSource event targets sourceUuid
                sourceName b e) as Himm.
  split; [exact Hres|]. split; [exact Himm|]. split.
  - intros Hd Hs a. apply distinct_tiers_neq in Hd.
    apply resolved_avoids_resistance; [tauto|]. right. apply Hres. exact Hs.
  - intros Hd Hs Hc a. apply distinct_tiers_neq in Hd.
    apply resolved_avoids_immunity; [tauto|]. right. apply Himm. auto.
Qed.

Lemma click_modifiers_set_traits_witness :
  let r := applicationRequest Cases.anonymous Cases.shiftClick
             (TArray [Sample.target 1]) None "Flare" (Sample.fire 10)
             ExtraDamageInfo.empty in
  distinct_tiers Sample.affValue /\
  shiftKey Cases.shiftClick = true /\
  forall a, Context.affinity (resolveAffinity Sample.affValue (Context.constructor r a))
            <> Some (resistance Sample.affValue).
Proof.
  intros r. split; [exact Sample_distinct|]. split; [reflexivity|].
  exact (proj1 (proj2 (proj2 (click_modifiers_set_traits Sample.affValue
                                Cases.anonymous Cases.shiftClick
                                (TArray [Sample.target 1]) None "Flare"
                                (Sample.fire 10) ExtraDamageInfo.empty)))
           Sample_distinct eq_refl).
Defined.

(** A shift click on a resistant target: full damage, reported as an
    ignored resistance. *)
Example shift_click_on_resistant :
  let run := handleDamageApplication Sample.affValue no_listeners Cases.anonymous
               Cases.shiftClick (TArray [Sample.target 1]) None "Flare"
               (Sample.fire 10) ExtraDamageInfo.empty in
  snd run = Resolved /\
  pool_updates (fst run) = [(Sample.target 1, JS.of_Z (-10))] /\
  chat_records (fst run) =
    [(Sample.target 1, Some 0%Z, Some "FU.ChatApplyDamageResistantIgnored", JS.of_Z 10)].
Proof. vm_compute. repeat split; reflexivity. Qed.

(** ** The trace of [process] *)

Section Trace.

Variable av : AffValue.
Variable hooks : Hooks.
Variable r : DamageRequest.t.

Lemma target_effects_length (a : Actor.t) : length (target_effects av hooks r a) = 3.
Proof. reflexivity. Qed.

Lemma flat_map_target_effects_length (l : list Actor.t) :
  length (flat_map (target_effects av hooks r) l) = 3 * length l.
Proof.
  induction l as [|a l IH]; [reflexivity|].
  cbn [flat_map]. rewrite length_app, IH, target_effects_length. cbn [length]. lia.
Qed.

(** The loop either runs to its end, or stops at the first target whose
    context has no result. *)
Lemma process_targets_outcome (actors : list Actor.t) :
  exists n,
    n <= length actors /\
    fst (process_targets av hooks r actors []) =
      flat_map (target_effects av hooks r) (take n actors) /\
    (snd (process_targets av hooks r actors []) = Resolved /\ n = length actors \/
     snd (process_targets av hooks r actors []) =
       Thrown "Failed to generate result during pipeline" /\ n < length actors).
Proof.
  induction actors as [|a actors (n & Hle & Hfst & Hsnd)].
  - exists 0. split; [reflexivity|]. split; [reflexivity|]. left. split; reflexivity.
  - cbn [process_targets].
    destruct (Context.result (run_stages av hooks r a)) eqn:E.
    + exists 0. cbn [length fst snd take flat_map]. split; [lia|].
      split; [reflexivity|]. right. split; [reflexivity|lia].
    + rewrite process_targets_app. exists (S n).
      cbn [fst snd take flat_map length]. rewrite Hfst.
      split; [lia|]. split; [reflexivity|].
      destruct Hsnd as [[-> ->]|[-> Hlt]]; [left|right]; split; try reflexivity; lia.
    + rewrite process_targets_app. exists (S n).
      cbn [fst snd take flat_map length]. rewrite Hfst.
      split; [lia|]. split; [reflexivity|].
      destruct Hsnd as [[-> ->]|[-> Hlt]]; [left|right]; split; try reflexivity; lia.
Qed.

(** The loop on a list whose first target without a result is [a]. *)
Lemma process_targets_stops (pre post : list Actor.t) (a : Actor.t)
    (updates : list Effect) :
  Forall (fun x => Context.result (run_stages av hooks r x) <> Undefined) pre ->
  Context.result (run_stages av hooks r a) = Undefined ->
  process_targets av hooks r (pre ++ a :: post) updates =
    (updates ++ flat_map (target_effects av hooks r) pre,
     Thrown "Failed to generate result during pipeline").
Proof.
  intros Hpre Ha. revert updates.
  induction Hpre as [|x pre Hx Hpre IH]; intros updates.
  - cbn [app process_targets flat_map]. rewrite Ha. now rewrite app_nil_r.
  - cbn [app process_targets flat_map].
    destruct (Context.result (run_stages av hooks r x)) eqn:E; [congruence| |];
      rewrite IH, <- app_assoc; reflexivity.
Qed.

End Trace.

(** [process] on an array of targets, as a hook and a prefix of the loop. *)
Lemma process_trace_shape_aux (av : AffValue) (hooks : Hooks) (r : DamageRequest.t)
    (actors : list Actor.t) :
  DamageRequest.targets r = TArray actors ->
  exists n,
    fst (process av hooks r) =
      Hook_DAMAGE_APPLY_BEFORE r :: flat_map (target_effects av hooks r) (take n actors) /\
    (snd (process av hooks r) = Resolved -> n = length actors).
Proof.
  intros Ha.
  destruct (process_valid av hooks r (array_targets_valid r actors Ha))
    as (actors' & Ha' & E).
  rewrite Ha in Ha'. injection Ha' as <-. rewrite E. cbn [fst snd].
  destruct (process_targets_outcome av hooks r actors) as (n & _ & Hfst & Hsnd).
  exists n. rewrite Hfst. split; [reflexivity|].
  intros Hres. destruct Hsnd as [[_ ->]|[Hth _]]; [reflexivity|congruence].
Qed.

(** X2: for a request whose targets are an array, [process] fires the
    before-apply hook once and first, then, for each target of a prefix of
    the array in order, the apply-target hook, the hit-point update and the
    chat record, three effects a target; it handles the whole array and
    resolves, or stops early with the missing-result error; and an empty
    array resolves with the hook alone. *)
Theorem process_trace_shape (av : AffValue) (hooks : Hooks) (r : DamageRequest.t)
    (actors : list Actor.t) :
  DamageRequest.targets r = TArray actors ->
  (exists n,
     n <= length actors /\
     fst (process av hooks r) =
       Hook_DAMAGE_APPLY_BEFORE r :: flat_map (target_effects av hooks r) (take n actors) /\
     length (fst (process av hooks r)) = 1 + 3 * n /\
     (snd (process av hooks r) = Resolved /\ n = length actors \/
      snd (process av hooks r) = Thrown "Failed to generate result during pipeline" /\
        n < length actors)) /\
  (actors = [] -> process av hooks r = ([Hook_DAMAGE_APPLY_BEFORE r], Resolved)).
Proof.
  intros Ha.
  destruct (process_valid av hooks r (array_targets_valid r actors Ha))
    as (actors' & Ha' & E).
  rewrite Ha in Ha'. injection Ha' as <-. rewrite E. cbn [fst snd]. split.
  - destruct (process_targets_outcome av hooks r actors) as (n & Hle & Hfst & Hsnd).
    exists n. rewrite Hfst. split; [exact Hle|]. split; [reflexivity|].
    split; [|exact Hsnd].
    cbn [length]. rewrite flat_map_target_effects_length, length_take. lia.
  - intros ->. reflexivity.
Qed.

Lemma process_trace_shape_witness :
  DamageRequest.targets Cases.party
    = TArray [Sample.target 1; Sample.warded 0; Sample.target 2] /\
  exists n,
    n <= 3 /\
    fst (process Sample.affValue no_listeners Cases.party) =
      Hook_DAMAGE_APPLY_BEFORE Cases.party
      :: flat_map (target_effects Sample.affValue no_listeners Cases.party)
           (take n [Sample.target 1; Sample.warded 0; Sample.target 2]) /\
    length (fst (process Sample.affValue no_listeners Cases.party)) = 1 + 3 * n /\
    (snd (process Sample.affValue no_listeners Cases.party) = Resolved /\ n = 3 \/
     snd (process Sample.affValue no_listeners Cases.party)
       = Thrown "Failed to generate result during pipeline" /\ n < 3).
Proof.
  split; [reflexivity|].
  exact (proj1 (process_trace_shape Sample.affValue no_listeners Cases.party
                  [Sample.target 1; Sample.warded 0; Sample.target 2] eq_refl)).
Defined.

(** X3: [process] is not transactional.  When a target's context comes out
    of the stages without a result, every target before it in the array
    has already had its hook call, hit-point update and chat record issued,
    that target and the ones after it get nothing, and the promise rejects
    with the missing-result error. *)
Theorem process_stops_without_rollback (av : AffValue) (hooks : Hooks)
    (r : DamageRequest.t) (pre post : list Actor.t) (a : Actor.t) :
  DamageRequest.targets r = TArray (pre ++ a :: post) ->
  Forall (fun x => Context.result (run_stages av hooks r x) <> Undefined) pre ->
  Context.result (run_stages av hooks r a) = Undefined ->
  process av hooks r =
    (Hook_DAMAGE_APPLY_BEFORE r :: flat_map (target_effects av hooks r) pre,
     Thrown "Failed to generate result during pipeline") /\
  mutated (fst (process av hooks r)) = pre /\
  reported (fst (process av hooks r)) = pre.
Proof.
  intros Ht Hpre Ha.
  assert (E : process av hooks r =
              (Hook_DAMAGE_APPLY_BEFORE r :: flat_map (target_effects av hooks r) pre,
               Thrown "Failed to generate result during pipeline")).
  { unfold process.
    rewrite (array_targets_valid r _ Ht), Ht.
    now rewrite process_targets_stops. }
  rewrite E. cbn [fst]. split; [reflexivity|].
  change (mutated (?e :: ?l)) with (mutated l).
  change (reported (?e :: ?l)) with (reported l).
  unfold target_effects. now rewrite mutated_flat_map, reported_flat_map.
Qed.

Lemma process_stops_without_rollback_witness :
  DamageRequest.targets Cases.party
    = TArray ([Sample.target 1] ++ Sample.warded 0 :: [Sample.target 2]) /\
  Context.result (run_stages Sample.affValue Cases.dropGolem Cases.party (Sample.warded 0))
    = Undefined /\
  snd (process Sample.affValue Cases.dropGolem Cases.party)
    = Thrown "Failed to generate result during pipeline" /\
  mutated (fst (process Sample.affValue Cases.dropGolem Cases.party)) = [Sample.target 1].
Proof.
  assert (Hpre : Forall (fun x => Context.result
                                    (run_stages Sample.affValue Cases.dropGolem
                                       Cases.party x) <> Undefined)
                   [Sample.target 1]).
  { constructor; [|constructor]. vm_compute. discriminate. }
  assert (Ha : Context.result
                 (run_stages Sample.affValue Cases.dropGolem Cases.party
                    (Sample.warded 0)) = Undefined) by (vm_compute; reflexivity).
  destruct (process_stops_without_rollback Sample.affValue Cases.dropGolem Cases.party
              [Sample.target 1] [Sample.target 2] (Sample.warded 0) eq_refl Hpre Ha)
    as (E & Hm & _).
  split; [reflexivity|]. split; [exact Ha|]. split; [|exact Hm].
  rewrite E. reflexivity.
Defined.

(** ** The chat record *)

Lemma Qcopp_nonneg (x : Qc) : (0 <= - x)%Qc -> (x <= 0)%Qc.
Proof.
  intros H. apply Qcopp_le_compat in H. now rewrite Qcopp_involutive in H.
Qed.

Lemma Qcopp_neg (x : Qc) : (x < 0)%Qc -> (0 <= - x)%Qc.
Proof.
  intros H. apply Qclt_le_weak, Qcopp_le_compat in H. exact H.
Qed.

Lemma nabs_nneg (n : number) : JS.nabs (JS.nneg n) = JS.nabs n.
Proof.
  destruct n as [|x]; [reflexivity|]. cbn. f_equal.
  destruct (Qc_le_dec 0%Qc (- x)%Qc) as [Hn|Hn], (Qc_le_dec 0%Qc x) as [Hp|Hp].
  - apply Qcopp_nonneg in Hn. assert (x = 0%Qc) as -> by now apply Qcle_antisym.
    reflexivity.
  - reflexivity.
  - apply Qcopp_involutive.
  - exfalso. apply Hn. apply Qcnot_le_lt in Hp. now apply Qcopp_neg.
Qed.

Lemma abs_neg (v : value) : JS.abs (JS.neg v) = JS.abs v.
Proof. unfold JS.abs, JS.neg. cbn [JS.ToNumber]. now rewrite nabs_nneg. Qed.

Lemma abs_nonneg (v : value) (d : Qc) : JS.abs v = Num (Fin d) -> (0 <= d)%Qc.
Proof.
  unfold JS.abs. destruct (JS.ToNumber v) as [|x]; cbn; [discriminate|].
  intros [= <-]. destruct (Qc_le_dec 0%Qc x) as [H|H]; [exact H|].
  apply Qcnot_le_lt in H. now apply Qcopp_neg.
Qed.

Lemma chat_records_flat_map (av : AffValue) (hooks : Hooks) (r : DamageRequest.t)
    (l : list Actor.t) :
  chat_records (flat_map (target_effects av hooks r) l) =
  map (fun a => let c := run_stages av hooks r a in
                (a, Context.affinity c, Context.affinityMessage c,
                 JS.abs (Context.result c))) l.
Proof.
  induction l as [|a l IH]; [reflexivity|].
  cbn. rewrite abs_neg. f_equal. exact IH.
Qed.

(** X4: the chat records [process] emits are, target by target over the
    targets it handled, the tier and the message of the target's final
    context and the absolute value of its result; so the damage a record
    reports is never negative, and a healing absorbed hit is reported with
    the same figure as a hit of that size. *)
Theorem chat_record_reports_magnitude (av : AffValue) (hooks : Hooks)
    (r : DamageRequest.t) (actors : list Actor.t) :
  DamageRequest.targets r = TArray actors ->
  (exists n,
     chat_records (fst (process av hooks r)) =
       map (fun a => let c := run_stages av hooks r a in
                     (a, Context.affinity c, Context.affinityMessage c,
                      JS.abs (Context.result c)))
         (take n actors) /\
     (snd (process av hooks r) = Resolved -> n = length actors)) /\
  (forall a tier message d,
     (a, tier, message, Num (Fin d)) ∈ chat_records (fst (process av hooks r)) ->
     (0 <= d)%Qc).
Proof.
  intros Ha.
  destruct (process_trace_shape_aux av hooks r actors Ha) as (n & E & Hn).
  assert (Hc : chat_records (fst (process av hooks r)) =
               map (fun a => let c := run_stages av hooks r a in
                             (a, Context.affinity c, Context.affinityMessage c,
                              JS.abs (Context.result c)))
                 (take n actors)).
  { rewrite E. change (chat_records (?e :: ?l)) with (chat_records l).
    apply chat_records_flat_map. }
  split.
  - exists n. split; [exact Hc|exact Hn].
  - intros a tier message d Hin. rewrite Hc in Hin.
    apply list_elem_of_fmap in Hin. destruct Hin as (x & Hx & _).
    cbv zeta in Hx.
    assert (Hd : JS.abs (Context.result (run_stages av hooks r x)) = Num (Fin d))
      by congruence.
    now apply abs_nonneg in Hd.
Qed.

Lemma chat_record_reports_magnitude_witness :
  let r := Sample.request 3 8 ExtraDamageInfo.empty in
  DamageRequest.targets r = TArray [Sample.target 3] /\
  forall a tier message d,
    (a, tier, message, Num (Fin d))
      ∈ chat_records (fst (process Sample.affValue no_listeners r)) ->
    (0 <= d)%Qc.
Proof.
  intros r. split; [reflexivity|].
  exact (proj2 (chat_record_reports_magnitude Sample.affValue no_listeners r
                  [Sample.target 3] eq_refl)).
Defined.

(** The absorbed hit of scenario C in the chat: tier absorption, the
    absorb message, and 8 as the damage. *)
Example absorbed_hit_record :
  chat_records (fst (process Sample.affValue no_listeners
                       (Sample.request 3 8 ExtraDamageInfo.empty)))
  = [(Sample.target 3, Some 3%Z, Some "FU.ChatApplyDamageAbsorb", JS.of_Z 8)].
Proof. vm_compute. reflexivity. Qed.

(** ** What the collectors put in the maps *)

Lemma resolveAffinity_fields (av : AffValue) (c : Context.t) :
  Context.actor (resolveAffinity av c) = Context.actor c /\
  Context.sourceActor (resolveAffinity av c) = Context.sourceActor c /\
  Context.bonuses (resolveAffinity av c) = Context.bonuses c /\
  Context.modifiers (resolveAffinity av c) = Context.modifiers c /\
  Context.result (resolveAffinity av c) = Context.result c.
Proof.
  destruct (resolveAffinity_frame av c) as (a & msg & ->). repeat split.
Qed.

(** Without listeners and off the override path, the stages leave the
    context the resolver made, with the two maps filled and the folded
    result. *)
Lemma run_stages_no_listeners (av : AffValue) (r : DamageRequest.t) (a : Actor.t) :
  JS.truthy (Overrides.total (DamageRequest.overrides r)) = false ->
  run_stages av no_listeners r a =
  calculateResult no_listeners
    (collectMultipliers av no_listeners
       (collectIncrements (resolveAffinity av (Context.constructor r a)))).
Proof.
  intros Ht. unfold run_stages, overrideResult, Context.overrides.
  rewrite resolveAffinity_request. cbn [Context.request Context.constructor].
  now rewrite Ht.
Qed.

(** The maps of a target's context when nothing listens on the hooks. *)
Lemma run_stages_maps (av : AffValue) (r : DamageRequest.t) (a : Actor.t) :
  JS.truthy (Overrides.total (DamageRequest.overrides r)) = false ->
  let c := run_stages av no_listeners r a in
  let type := DamageRequest.damageType r in
  let outgoing :=
    match SourceInfo.actor (DamageRequest.sourceInfo r) with
    | Some s =>
        match Actor.bonuses s with
        | Some b =>
            [("outgoingDamage.all", prop (Bonuses.damage b) "all");
             ("outgoingDamage.damageType",
              JS.nullish (prop (Bonuses.damage b) type) (JS.of_Z 0))]
        | None => []
        end
    | None => []
    end in
  let incoming :=
    match Actor.bonuses a with
    | Some b =>
        [("incomingDamage.all", prop (Bonuses.incomingDamage b) "all");
         ("incomingDamage.damageType",
          JS.nullish (prop (Bonuses.incomingDamage b) type) (JS.of_Z 0))]
    | None => []
    end in
  let scale :=
    if JS.truthy (Actor.scaleIncomingDamage a)
    then [("scaleIncomingDamage", Actor.scaleIncomingDamage a)]
    else [] in
  let tier := Context.affinity (resolveAffinity av (Context.constructor r a)) in
  Context.bonuses c = outgoing ++ incoming /\
  Context.modifiers c = scale ++ [("affinity", affinityDamageModifier_at av tier)].
Proof.
  intros Ht c type outgoing incoming scale tier. subst c.
  rewrite (run_stages_no_listeners av r a Ht).
  subst outgoing incoming scale tier type.
  destruct (resolveAffinity_frame av (Context.constructor r a)) as (x & msg & ->).
  unfold calculateResult, collectMultipliers, collectIncrements, Context.damageType.
  cbn [DAMAGE_PIPELINE_CALCULATE DAMAGE_PIPELINE_COLLECT no_listeners
       Context.set_affinity Context.constructor Context.sourceActor Context.actor].
  destruct (SourceInfo.actor (DamageRequest.sourceInfo r)) as [s|];
    [destruct (Actor.bonuses s)|];
    cbn -[JS.truthy affinityDamageModifier_at prop JS.nullish];
    destruct (Actor.bonuses a);
    cbn -[JS.truthy affinityDamageModifier_at prop JS.nullish];
    destruct (JS.truthy (Actor.scaleIncomingDamage a)); split; reflexivity.
Qed.

(** X5: what the two collectors put in the maps of a fresh context, when no
    listener adds to them: the source's [all] and type bonuses under the two
    outgoing keys, if the source resolves to an actor with bonuses, then the
    target's under the two incoming keys, if it has bonuses, a missing type
    entry counting 0; and as modifiers the target's scale flag, if it is
    truthy, followed by the multiplier of the resolved tier, which comes
    last. *)
Theorem collected_maps (av : AffValue) (r : DamageRequest.t) (a : Actor.t) :
  JS.truthy (Overrides.total (DamageRequest.overrides r)) = false ->
  let c := run_stages av no_listeners r a in
  let type := DamageRequest.damageType r in
  let outgoing :=
    match SourceInfo.actor (DamageRequest.sourceInfo r) with
    | Some s =>
        match Actor.bonuses s with
        | Some b =>
            [("outgoingDamage.all", prop (Bonuses.damage b) "all");
             ("outgoingDamage.damageType",
              JS.nullish (prop (Bonuses.damage b) type) (JS.of_Z 0))]
        | None => []
        end
    | None => []
    end in
  let incoming :=
    match Actor.bonuses a with
    | Some b =>
        [("incomingDamage.all", prop (Bonuses.incomingDamage b) "all");
         ("incomingDamage.damageType",
          JS.nullish (prop (Bonuses.incomingDamage b) type) (JS.of_Z 0))]
    | None => []
    end in
  let scale :=
    if JS.truthy (Actor.scaleIncomingDamage a)
    then [("scaleIncomingDamage", Actor.scaleIncomingDamage a)]
    else [] in
  let tier := Context.affinity (resolveAffinity av (Context.constructor r a)) in
  Context.bonuses c = outgoing ++ incoming /\
  Context.modifiers c = scale ++ [("affinity", affinityDamageModifier_at av tier)].
Proof. exact (run_stages_maps av r a). Qed.

Lemma collected_maps_witness :
  let r := Sample.cast 1 10 in
  JS.truthy (Overrides.total (DamageRequest.overrides r)) = false /\
  Context.modifiers (run_stages Sample.affValue no_listeners r (Sample.warded 1))
    = [] ++ [("affinity",
              affinityDamageModifier_at Sample.affValue
                (Context.affinity
                   (resolveAffinity Sample.affValue
                      (Context.constructor r (Sample.warded 1)))))].
Proof.
  intros r. split; [reflexivity|].
  exact (proj2 (collected_maps Sample.affValue r (Sample.warded 1) eq_refl)).
Defined.

(** ** Closed forms of the result *)

Lemma nadd_NaN_r (n : number) : JS.nadd n NaN = NaN.
Proof. destruct n; reflexivity. Qed.

Lemma nmul_NaN_r (n : number) : JS.nmul n NaN = NaN.
Proof. destruct n; reflexivity. Qed.

Lemma sum_finite (l : list value) : Forall finite l -> finite (sum l).
Proof.
  induction 1 as [|v l [q Hq] _ [q' IH]]; cbn [sum fold_right].
  - exists 0%Qc. reflexivity.
  - exists (q + q')%Qc. fold (sum l). cbn [JS.add JS.ToNumber]. now rewrite Hq, IH.
Qed.

Lemma sum_NaN (l : list value) :
  Exists (fun v => JS.ToNumber v = NaN) l -> JS.ToNumber (sum l) = NaN.
Proof.
  induction 1 as [v l Hv|v l _ IH]; cbn [sum fold_right]; fold (sum l);
    cbn [JS.add JS.ToNumber].
  - now rewrite Hv.
  - rewrite IH. apply nadd_NaN_r.
Qed.

Lemma product_NaN (l : list value) :
  Exists (fun v => JS.ToNumber v = NaN) l -> JS.ToNumber (product l) = NaN.
Proof.
  induction 1 as [v l Hv|v l _ IH]; cbn [product fold_right]; fold (product l);
    cbn [JS.mul JS.ToNumber].
  - now rewrite Hv.
  - rewrite IH. apply nmul_NaN_r.
Qed.

(** The result of a target without listeners, off the override path. *)
Lemma run_stages_result (av : AffValue) (r : DamageRequest.t) (a : Actor.t) :
  JS.truthy (Overrides.total (DamageRequest.overrides r)) = false ->
  let c := run_stages av no_listeners r a in
  Context.result c =
    JS.mul (JS.add (DamageRequest.amount r) (sum (JS.values (Context.bonuses c))))
           (product (JS.values (Context.modifiers c))).
Proof.
  intros Ht c.
  assert (Hne : Context.modifiers c <> []).
  { subst c. destruct (run_stages_maps av r a Ht) as (_ & ->).
    destruct (JS.truthy (Actor.scaleIncomingDamage a)); discriminate. }
  revert Hne. subst c. rewrite (run_stages_no_listeners av r a Ht).
  unfold calculateResult.
  cbn [DAMAGE_PIPELINE_CALCULATE no_listeners Context.result Context.bonuses
       Context.modifiers Context.set_result].
  intros Hne. rewrite (fold_result_formula _ _ _ Hne). do 3 f_equal.
  unfold Context.amount, collectMultipliers.
  cbn [DAMAGE_PIPELINE_COLLECT no_listeners].
  transitivity (DamageRequest.amount
                  (Context.request
                     (collectIncrements (resolveAffinity av (Context.constructor r a))))).
  - destruct (JS.truthy (Actor.scaleIncomingDamage _)); reflexivity.
  - now rewrite collectIncrements_request, resolveAffinity_request.
Qed.

(** X6: without listeners and off the override path, a target whose
    resolved tier is immunity takes nothing, whatever the amount, the
    bonuses and its scale flag, as long as the amount and the collected
    bonuses are numbers: the result is 0 and so is the hit-point delta. *)
Theorem immune_target_takes_nothing (av : AffValue) (r : DamageRequest.t)
    (a : Actor.t) :
  distinct_tiers av ->
  JS.truthy (Overrides.total (DamageRequest.overrides r)) = false ->
  Context.affinity (resolveAffinity av (Context.constructor r a)) = Some (immunity av) ->
  finite (DamageRequest.amount r) ->
  Forall finite (JS.values (Context.bonuses (run_stages av no_listeners r a))) ->
  Context.result (run_stages av no_listeners r a) = JS.of_Z 0 /\
  JS.neg (Context.result (run_stages av no_listeners r a)) = JS.of_Z 0.
Proof.
  intros Hd Ht Htier [qa Hqa] Hb.
  assert (Hr : Context.result (run_stages av no_listeners r a) = JS.of_Z 0).
  { rewrite (run_stages_result av r a Ht).
    destruct (sum_finite _ Hb) as (qb & Hqb).
    destruct (run_stages_maps av r a Ht) as (_ & ->). rewrite Htier.
    destruct (multiplier_table av Hd) as (_ & _ & _ & -> & _).
    unfold JS.mul, JS.add. cbn [JS.ToNumber]. rewrite Hqa, Hqb.
    destruct (JS.truthy (Actor.scaleIncomingDamage a)) eqn:Es.
    - destruct (truthy_Num _ Es) as (n & En). rewrite En in *.
      destruct n as [|qs]; [discriminate Es|].
      cbn. unfold JS.of_Z. do 2 f_equal.
      change (Q2Qc (inject_Z 0)) with 0%Qc. change (Q2Qc (inject_Z 1)) with 1%Qc. ring.
    - cbn. unfold JS.of_Z. do 2 f_equal.
      change (Q2Qc (inject_Z 0)) with 0%Qc. change (Q2Qc (inject_Z 1)) with 1%Qc. ring. }
  split; [exact Hr|]. rewrite Hr. reflexivity.
Qed.

Lemma immune_target_takes_nothing_witness :
  let r := Sample.cast 2 10 in
  distinct_tiers Sample.affValue /\
  Context.affinity (resolveAffinity Sample.affValue (Context.constructor r (Sample.warded 2)))
    = Some (immunity Sample.affValue) /\
  Context.result (run_stages Sample.affValue no_listeners r (Sample.warded 2)) = JS.of_Z 0.
Proof.
  intros r.
  assert (Htier : Context.affinity
                    (resolveAffinity Sample.affValue
                       (Context.constructor r (Sample.warded 2)))
                  = Some (immunity Sample.affValue)) by (vm_compute; reflexivity).
  assert (Hfin : finite (DamageRequest.amount r)) by (eexists; reflexivity).
  assert (Hb : Forall finite
                 (JS.values (Context.bonuses
                               (run_stages Sample.affValue no_listeners r
                                  (Sample.warded 2))))).
  { vm_compute. repeat constructor; eexists; reflexivity. }
  split; [exact Sample_distinct|]. split; [exact Htier|].
  exact (proj1 (immune_target_takes_nothing Sample.affValue r (Sample.warded 2)
                  Sample_distinct eq_refl Htier Hfin Hb)).
Defined.

(** X7: the [all] entry of a bonus table is read as it is, without the
    default the type entry gets.  Without listeners and off the override
    path, a target whose incoming table, or a source whose outgoing table,
    has no [all] entry makes the result [NaN], and the hit-point delta with
    it, whatever the tier. *)
Theorem missing_all_bonus_gives_NaN (av : AffValue) (r : DamageRequest.t)
    (a : Actor.t) :
  JS.truthy (Overrides.total (DamageRequest.overrides r)) = false ->
  (exists b, Actor.bonuses a = Some b /\ Bonuses.incomingDamage b !! "all" = None) \/
  (exists s b, SourceInfo.actor (DamageRequest.sourceInfo r) = Some s /\
               Actor.bonuses s = Some b /\ Bonuses.damage b !! "all" = None) ->
  Context.result (run_stages av no_listeners r a) = Num NaN /\
  JS.neg (Context.result (run_stages av no_listeners r a)) = Num NaN.
Proof.
  intros Ht H.
  assert (Hs : JS.ToNumber (sum (JS.values (Context.bonuses
                                              (run_stages av no_listeners r a)))) = NaN).
  { apply sum_NaN. destruct (run_stages_maps av r a Ht) as (-> & _).
    unfold JS.values. rewrite map_app. apply Exists_app.
    destruct H as [(b & -> & Hb)|(s & b & -> & -> & Hb)]; [right|left];
      apply Exists_cons_hd; cbn [snd]; unfold prop; rewrite Hb; reflexivity. }
  assert (Hr : Context.result (run_stages av no_listeners r a) = Num NaN).
  { rewrite (run_stages_result av r a Ht). unfold JS.mul, JS.add.
    cbn [JS.ToNumber]. rewrite Hs, nadd_NaN_r. reflexivity. }
  split; [exact Hr|]. rewrite Hr. reflexivity.
Qed.

Lemma missing_all_bonus_gives_NaN_witness :
  let bare := {| Actor.name := "Wisp";
                 Actor.affinities := ∅;
                 Actor.bonuses := Some {| Bonuses.damage := ∅;
                                          Bonuses.incomingDamage := {[ "fire" := JS.of_Z 1 ]} |};
                 Actor.scaleIncomingDamage := Undefined |} in
  let r := Sample.request 0 10 ExtraDamageInfo.empty in
  (exists b, Actor.bonuses bare = Some b /\ Bonuses.incomingDamage b !! "all" = None) /\
  Context.result (run_stages Sample.affValue no_listeners r bare) = Num NaN.
Proof.
  intros bare r.
  assert (H : exists b, Actor.bonuses bare = Some b /\
                        Bonuses.incomingDamage b !! "all" = None).
  { eexists. split; [reflexivity|]. vm_compute. reflexivity. }
  split; [exact H|].
  exact (proj1 (missing_all_bonus_gives_NaN Sample.affValue r bare eq_refl
                  (or_introl H))).
Defined.

(** The resolver does not read the scale flag. *)
Lemma resolved_tier_with_scale (av : AffValue) (r : DamageRequest.t) (a : Actor.t)
    (v : value) :
  Context.affinity (resolveAffinity av (Context.constructor r (with_scale a v))) =
  Context.affinity (resolveAffinity av (Context.constructor r a)).
Proof.
  unfold resolveAffinity.
  change (lookupAffinity av (Context.constructor r (with_scale a v)))
    with (lookupAffinity av (Context.constructor r a)).
  change (Context.extraDamageInfo (Context.constructor r (with_scale a v)))
    with (Context.extraDamageInfo (Context.constructor r a)).
  change (Context.traits (Context.constructor r (with_scale a v)))
    with (Context.traits (Context.constructor r a)).
  generalize (lookupAffinity av (Context.constructor r a)). intros z.
  destruct (ExtraDamageInfo.ignoreVulnerable _).
  all: case_ifs; reflexivity.
Qed.

(** X8: the scale flag of the target is collected only when it is truthy.
    Without listeners and off the override path, a truthy flag is the
    [scaleIncomingDamage] modifier; a flag of 0, or one that is not set, is
    no modifier at all, and the result is what it is for the same target
    without the flag, so a scale of 0 does not bring the damage to 0. *)
Theorem scale_flag_collected_when_truthy (av : AffValue) (r : DamageRequest.t)
    (a : Actor.t) :
  JS.truthy (Overrides.total (DamageRequest.overrides r)) = false ->
  let c := run_stages av no_listeners r a in
  (JS.truthy (Actor.scaleIncomingDamage a) = true ->
   JS.get (Context.modifiers c) "scaleIncomingDamage" = Some (Actor.scaleIncomingDamage a)) /\
  (JS.truthy (Actor.scaleIncomingDamage a) = false ->
   JS.get (Context.modifiers c) "scaleIncomingDamage" = None /\
   Context.result c =
     Context.result (run_stages av no_listeners r (with_scale a Undefined))).
Proof.
  intros Ht c. subst c. split.
  - intros Hs. destruct (run_stages_maps av r a Ht) as (_ & ->). rewrite Hs. reflexivity.
  - intros Hs. split.
    + destruct (run_stages_maps av r a Ht) as (_ & ->). rewrite Hs. reflexivity.
    + rewrite (run_stages_result av r a Ht).
      rewrite (run_stages_result av r (with_scale a Undefined) Ht).
      destruct (run_stages_maps av r a Ht) as (-> & ->).
      destruct (run_stages_maps av r (with_scale a Undefined) Ht) as (-> & ->).
      rewrite Hs, resolved_tier_with_scale. reflexivity.
Qed.

Lemma scale_flag_collected_when_truthy_witness :
  let r := Sample.request 0 10 ExtraDamageInfo.empty in
  let a := with_scale (Sample.target 0) (JS.of_Z 0) in
  JS.truthy (Actor.scaleIncomingDamage a) = false /\
  JS.get (Context.modifiers (run_stages Sample.affValue no_listeners r a))
    "scaleIncomingDamage" = None /\
  Context.result (run_stages Sample.affValue no_listeners r a) =
    Context.result (run_stages Sample.affValue no_listeners r (with_scale a Undefined)).
Proof.
  intros r a.
  assert (H : JS.truthy (Actor.scaleIncomingDamage a) = false) by reflexivity.
  split; [exact H|].
  exact (proj2 (scale_flag_collected_when_truthy Sample.affValue r a eq_refl) H).
Defined.

(** A scale of 0 and a scale of one half on 10 fire damage without
    affinity: 10 and 5. *)
Example scale_zero_and_half :
  let r := Sample.request 0 10 ExtraDamageInfo.empty in
  Context.result
    (run_stages Sample.affValue no_listeners r (with_scale (Sample.target 0) (JS.of_Z 0)))
    = JS.of_Z 10 /\
  Context.result
    (run_stages Sample.affValue no_listeners r
       (with_scale (Sample.target 0) (JS.of_Q (1 # 2))))
    = JS.of_Z 5.
Proof. split; vm_compute; apply Num_Fin_eq; reflexivity. Qed.

(** ** The override path through [process] *)

(** X9: with a truthy override total, [process] always resolves, and every
    target of the array has its hit points changed by minus that total,
    whatever its affinity, its bonuses, its flag and the listeners on the
    two pipeline hooks, which are not called. *)
Theorem override_total_applies_uniformly (av : AffValue) (hooks : Hooks)
    (r : DamageRequest.t) (actors : list Actor.t) :
  JS.truthy (Overrides.total (DamageRequest.overrides r)) = true ->
  DamageRequest.targets r = TArray actors ->
  snd (process av hooks r) = Resolved /\
  pool_updates (fst (process av hooks r)) =
    map (fun a => (a, JS.neg (Overrides.total (DamageRequest.overrides r)))) actors /\
  forall a, run_stages av hooks r a = run_stages av no_listeners r a.
Proof.
  intros Ht Ha.
  assert (Hres : forall a, Context.result (run_stages av hooks r a)
                           = Overrides.total (DamageRequest.overrides r)).
  { intros a. apply (override_total_skips_collection av hooks r a Ht). }
  assert (Hok : snd (process av hooks r) = Resolved).
  { destruct (process_valid av hooks r (array_targets_valid r actors Ha))
      as (actors' & _ & ->). cbn [snd].
    apply process_targets_resolved. intros a _. rewrite Hres.
    now apply truthy_Num. }
  split; [exact Hok|]. split.
  - destruct (process_trace_shape_aux av hooks r actors Ha) as (n & E & Hn).
    specialize (Hn Hok). subst n. rewrite firstn_all in E. rewrite E.
    change (pool_updates (?e :: ?l)) with (pool_updates l).
    unfold target_effects. rewrite pool_updates_flat_map.
    apply map_ext. intros a. now rewrite Hres.
  - intros a. unfold run_stages, overrideResult, Context.overrides.
    rewrite resolveAffinity_request. cbn [Context.request Context.constructor].
    now rewrite Ht.
Qed.

Lemma override_total_applies_uniformly_witness :
  let r := DamageRequest.with_overrides Cases.party
             {| Overrides.affinity := None; Overrides.total := JS.of_Z 99 |} in
  JS.truthy (Overrides.total (DamageRequest.overrides r)) = true /\
  snd (process Sample.affValue Cases.dropGolem r) = Resolved /\
  pool_updates (fst (process Sample.affValue Cases.dropGolem r)) =
    map (fun a => (a, JS.neg (Overrides.total (DamageRequest.overrides r))))
      [Sample.target 1; Sample.warded 0; Sample.target 2].
Proof.
  intros r. split; [reflexivity|].
  destruct (override_total_applies_uniformly Sample.affValue Cases.dropGolem r
              [Sample.target 1; Sample.warded 0; Sample.target 2] eq_refl eq_refl)
    as (H1 & H2 & _).
  split; [exact H1|exact H2].
Defined.

(** ** Tiers the table does not know, and types the target does not know *)

Section Switch.

Variable av : AffValue.
Variable c : Context.t.
Hypothesis distinct : distinct_tiers av.

Let extra := Context.extraDamageInfo c.
Let looked := lookupAffinity av c.

(** The tier the four checks leave, when the five indices are pairwise
    different. *)
Lemma resolveAffinity_tier :
  Context.affinity (resolveAffinity av c) =
  Some (if Z.eqb looked (vulnerability av)
        then if ExtraDamageInfo.ignoreVulnerable extra then none av else vulnerability av
        else if Z.eqb looked (resistance av)
        then if ExtraDamageInfo.ignoreResistance extra
                || bool_decide (Traits.IgnoreResistance ∈ Context.traits c)
             then none av else resistance av
        else if Z.eqb looked (immunity av)
        then if ExtraDamageInfo.ignoreImmunities extra
                || bool_decide (Traits.IgnoreImmunity ∈ Context.traits c)
             then none av else immunity av
        else if Z.eqb looked (absorption av)
        then if ExtraDamageInfo.ignoreAbsorption extra then none av else absorption av
        else looked).
Proof.
  pose proof (distinct_tiers_neq av distinct)
    as (? & ? & ? & ? & ? & ? & ? & ? & ? & ?).
  subst looked. unfold resolveAffinity. fold extra.
  generalize (lookupAffinity av c). intros a.
  destruct (ExtraDamageInfo.ignoreVulnerable extra);
  destruct (ExtraDamageInfo.ignoreResistance extra
            || bool_decide (Traits.IgnoreResistance ∈ Context.traits c));
  destruct (ExtraDamageInfo.ignoreImmunities extra
            || bool_decide (Traits.IgnoreImmunity ∈ Context.traits c));
  destruct (ExtraDamageInfo.ignoreAbsorption extra);
  case_ifs; cbn; try reflexivity; eqb_facts; congruence.
Qed.

End Switch.

(** X10: although the four checks of the resolver run one after the other,
    each on the tier the one before left, with pairwise different indices
    they act as one exclusive switch on the looked-up tier: at most one
    check fires, the tier is none when that check's ignore flag or trait
    is set and the looked-up tier otherwise, and the message is the one of
    that check alone. *)
Theorem resolver_is_exclusive_switch (av : AffValue) (c : Context.t) :
  distinct_tiers av ->
  let extra := Context.extraDamageInfo c in
  let looked := lookupAffinity av c in
  let ignoresResistance :=
    ExtraDamageInfo.ignoreResistance extra
    || bool_decide (Traits.IgnoreResistance ∈ Context.traits c) in
  let ignoresImmunity :=
    ExtraDamageInfo.ignoreImmunities extra
    || bool_decide (Traits.IgnoreImmunity ∈ Context.traits c) in
  (Context.affinity (resolveAffinity av c), Context.affinityMessage (resolveAffinity av c)) =
  if Z.eqb looked (vulnerability av)
  then (Some (if ExtraDamageInfo.ignoreVulnerable extra then none av else looked),
        Some "FU.ChatApplyDamageVulnerable")
  else if Z.eqb looked (resistance av)
  then if ignoresResistance
       then (Some (none av), Some "FU.ChatApplyDamageResistantIgnored")
       else (Some looked, Some "FU.ChatApplyDamageResistant")
  else if Z.eqb looked (immunity av)
  then if ignoresImmunity
       then (Some (none av), Some "FU.ChatApplyDamageImmuneIgnored")
       else (Some looked, Some "FU.ChatApplyDamageImmune")
  else if Z.eqb looked (absorption av)
  then if ExtraDamageInfo.ignoreAbsorption extra
       then (Some (none av), Some "FU.ChatApplyDamageNormal")
       else (Some looked, Some "FU.ChatApplyDamageAbsorb")
  else (Some looked, Some "FU.ChatApplyDamageNormal").
Proof.
  intros Hd extra looked ignoresResistance ignoresImmunity.
  rewrite (resolveAffinity_tier av c Hd), (resolveAffinity_message av c Hd).
  subst extra looked ignoresResistance ignoresImmunity.
  generalize (lookupAffinity av c). intros a.
  case_ifs; eqb_facts; try reflexivity; congruence.
Qed.

Lemma resolver_is_exclusive_switch_witness :
  let c := Context.constructor (Sample.request (-1) 10 Sample.ignoringVulnerable)
             (Sample.target (-1)) in
  distinct_tiers Sample.affValue /\
  (Context.affinity (resolveAffinity Sample.affValue c),
   Context.affinityMessage (resolveAffinity Sample.affValue c))
  = (Some 0%Z, Some "FU.ChatApplyDamageVulnerable").
Proof.
  intros c. split; [exact Sample_distinct|].
  exact (resolver_is_exclusive_switch Sample.affValue c Sample_distinct).
Defined.

(** X11: a target that has no entry for the damage type of the request, on
    a request without an affinity override, is treated as having no
    affinity: the tier is none, the message is the one of a normal
    application, and the affinity multiplier collected for it is 1. *)
Theorem target_without_entry_is_neutral (av : AffValue) (r : DamageRequest.t)
    (a : Actor.t) :
  distinct_tiers av ->
  affinity_truthy (Overrides.affinity (DamageRequest.overrides r)) = false ->
  Actor.affinities a !! DamageRequest.damageType r = None ->
  let c0 := resolveAffinity av (Context.constructor r a) in
  Context.affinity c0 = Some (none av) /\
  Context.affinityMessage c0 = Some "FU.ChatApplyDamageNormal" /\
  (JS.truthy (Overrides.total (DamageRequest.overrides r)) = false ->
   JS.get (Context.modifiers (run_stages av no_listeners r a)) "affinity"
     = Some (JS.of_Z 1)).
Proof.
  intros Hd Ho Hm c0.
  assert (Hl : lookupAffinity av (Context.constructor r a) = none av).
  { unfold lookupAffinity, Context.overrides, Context.damageType.
    cbn [Context.request Context.constructor Context.actor]. now rewrite Ho, Hm. }
  pose proof (distinct_tiers_neq av Hd) as (? & ? & ? & ? & ? & ? & ? & ? & ? & ?).
  assert (Ht : Context.affinity c0 = Some (none av)).
  { subst c0. rewrite (resolveAffinity_tier av _ Hd), Hl.
    case_ifs; eqb_facts; congruence. }
  split; [exact Ht|]. split.
  - subst c0. rewrite (resolveAffinity_message av _ Hd), Hl.
    case_ifs; eqb_facts; congruence.
  - intros Htot. destruct (run_stages_maps av r a Htot) as (_ & ->).
    fold c0. rewrite Ht.
    destruct (multiplier_table av Hd) as (_ & -> & _).
    destruct (JS.truthy (Actor.scaleIncomingDamage a)); reflexivity.
Qed.

Lemma target_without_entry_is_neutral_witness :
  let r := DamageRequest.constructor Sample.source (TArray [Sample.target 1])
             {| BaseDamageInfo.total := JS.of_Z 10; BaseDamageInfo.type := "ice";
                BaseDamageInfo.modifierTotal := JS.of_Z 0 |}
             ExtraDamageInfo.empty in
  distinct_tiers Sample.affValue /\
  Actor.affinities (Sample.target 1) !! DamageRequest.damageType r = None /\
  Context.affinity (resolveAffinity Sample.affValue (Context.constructor r (Sample.target 1)))
    = Some (none Sample.affValue).
Proof.
  intros r.
  assert (Hm : Actor.affinities (Sample.target 1) !! DamageRequest.damageType r = None)
    by (vm_compute; reflexivity).
  split; [exact Sample_distinct|]. split; [exact Hm|].
  exact (proj1 (target_without_entry_is_neutral Sample.affValue r (Sample.target 1)
                  Sample_distinct eq_refl Hm)).
Defined.

(** X12: an affinity index that is none of the five, from an override or
    from the target's table, goes through the resolver unchanged with the
    message of a normal application; the table has no multiplier for it, so
    without listeners and off the override path the result is [NaN]. *)
Theorem unknown_tier_gives_NaN (av : AffValue) (r : DamageRequest.t) (a : Actor.t) :
  let looked := lookupAffinity av (Context.constructor r a) in
  let c0 := resolveAffinity av (Context.constructor r a) in
  looked <> vulnerability av -> looked <> none av -> looked <> resistance av ->
  looked <> immunity av -> looked <> absorption av ->
  Context.affinity c0 = Some looked /\
  Context.affinityMessage c0 = Some "FU.ChatApplyDamageNormal" /\
  (JS.truthy (Overrides.total (DamageRequest.overrides r)) = false ->
   Context.result (run_stages av no_listeners r a) = Num NaN).
Proof.
  intros looked c0 Hv Hn Hr Hi Ha.
  assert (Hc0 : Context.affinity c0 = Some looked /\
                Context.affinityMessage c0 = Some "FU.ChatApplyDamageNormal").
  { subst c0. unfold resolveAffinity. fold looked.
    rewrite (proj2 (Z.eqb_neq _ _) Hv). cbn iota.
    rewrite (proj2 (Z.eqb_neq _ _) Hr). cbn iota.
    rewrite (proj2 (Z.eqb_neq _ _) Hi). cbn iota.
    rewrite (proj2 (Z.eqb_neq _ _) Ha). split; reflexivity. }
  destruct Hc0 as (Ht & Hm). split; [exact Ht|]. split; [exact Hm|].
  intros Htot. rewrite (run_stages_result av r a Htot).
  assert (Hp : JS.ToNumber (product (JS.values (Context.modifiers
                                                  (run_stages av no_listeners r a))))
               = NaN).
  { apply product_NaN. destruct (run_stages_maps av r a Htot) as (_ & ->).
    fold c0. rewrite Ht, (multiplier_table_elsewhere av looked Hv Hn Hr Hi Ha).
    unfold JS.values. rewrite map_app. apply Exists_app. right.
    apply Exists_cons_hd. reflexivity. }
  unfold JS.mul. rewrite Hp, nmul_NaN_r. reflexivity.
Qed.

Lemma unknown_tier_gives_NaN_witness :
  let r := DamageRequest.with_overrides (Sample.request 1 10 ExtraDamageInfo.empty)
             {| Overrides.affinity := Some 7%Z; Overrides.total := Undefined |} in
  lookupAffinity Sample.affValue (Context.constructor r (Sample.target 1)) = 7%Z /\
  Context.result (run_stages Sample.affValue no_listeners r (Sample.target 1)) = Num NaN.
Proof.
  intros r. split; [reflexivity|].
  refine (proj2 (proj2 (unknown_tier_gives_NaN Sample.affValue r (Sample.target 1)
                          _ _ _ _ _)) eq_refl); vm_compute; discriminate.
Defined.

(** * Properties of the active effect helpers *)

Section Categories.

Import Effects.

(** The loop from any state: each category grows by its effects of the
    list, in order, and every effect is asked for its source name. *)
Lemma classify_fold (l : list ActiveEffect) (cats : Categories) (lookups : list string) :
  fold_left classify l (cats, lookups) =
  ({| temporary := {| type := type (temporary cats); label := label (temporary cats);
                      effects := effects (temporary cats) ++ List.filter isTemporaryOn l |};
      passive := {| type := type (passive cats); label := label (passive cats);
                    effects := effects (passive cats) ++ List.filter isPassive l |};
      inactive := {| type := type (inactive cats); label := label (inactive cats);
                     effects := effects (inactive cats) ++ List.filter isInactive l |} |},
   lookups ++ map id l).
Proof.
  revert cats lookups. induction l as [|e l IH]; intros cats lookups.
  - cbn. rewrite !app_nil_r. destruct cats as [[] [] []]. reflexivity.
  - cbn [fold_left]. unfold classify at 2, isTemporaryOn, isPassive, isInactive.
    cbn [List.filter map].
    destruct (disabled e); [|destruct (isTemporary e)]; rewrite IH; cbn;
      rewrite <- ?app_assoc; reflexivity.
Qed.

End Categories.

(** The lists of the three categories. *)
Lemma categories_are_filters_aux (l : list Effects.ActiveEffect) :
  let categories := fst (Effects.prepareActiveEffectCategories l) in
  Effects.effects (Effects.inactive categories) = List.filter Effects.isInactive l /\
  Effects.effects (Effects.temporary categories) = List.filter Effects.isTemporaryOn l /\
  Effects.effects (Effects.passive categories) = List.filter Effects.isPassive l.
Proof.
  unfold Effects.prepareActiveEffectCategories. rewrite classify_fold.
  repeat split.
Qed.

(** X13: [prepareActiveEffectCategories] returns the three categories with
    their fixed types and labels; the inactive one holds the disabled
    effects, the temporary one the enabled temporary effects and the
    passive one the rest, each in the order of the input, so a disabled
    temporary effect is listed as inactive only; every effect is asked for
    its source name once, in order; and an empty input gives three empty
    categories. *)
Theorem categories_are_ordered_filters (l : list Effects.ActiveEffect) :
  let categories := fst (Effects.prepareActiveEffectCategories l) in
  Effects.inactive categories =
    {| Effects.type := "inactive"; Effects.label := "Inactive Effects";
       Effects.effects := List.filter Effects.isInactive l |} /\
  Effects.temporary categories =
    {| Effects.type := "temporary"; Effects.label := "Temporary Effects";
       Effects.effects := List.filter Effects.isTemporaryOn l |} /\
  Effects.passive categories =
    {| Effects.type := "passive"; Effects.label := "Passive Effects";
       Effects.effects := List.filter Effects.isPassive l |} /\
  snd (Effects.prepareActiveEffectCategories l) = map Effects.id l.
Proof.
  unfold Effects.prepareActiveEffectCategories. rewrite classify_fold.
  repeat split.
Qed.

(** X14: the categories are a partition of the input: the three lists
    together are a permutation of it, so nothing is dropped or listed
    twice, and an effect of the input is in exactly one of them. *)
Theorem categories_partition (l : list Effects.ActiveEffect) :
  let categories := fst (Effects.prepareActiveEffectCategories l) in
  let inactive := Effects.effects (Effects.inactive categories) in
  let temporary := Effects.effects (Effects.temporary categories) in
  let passive := Effects.effects (Effects.passive categories) in
  Permutation (inactive ++ temporary ++ passive) l /\
  length inactive + length temporary + length passive = length l /\
  (forall e, In e l ->
     (In e inactive /\ ~ In e temporary /\ ~ In e passive) \/
     (~ In e inactive /\ In e temporary /\ ~ In e passive) \/
     (~ In e inactive /\ ~ In e temporary /\ In e passive)).
Proof.
  intros categories inactive temporary passive.
  destruct (categories_are_filters_aux l) as (Hi & Ht & Hp).
  subst inactive temporary passive categories. rewrite Hi, Ht, Hp.
  assert (HP : Permutation
                 (List.filter Effects.isInactive l ++
                  List.filter Effects.isTemporaryOn l ++ List.filter Effects.isPassive l) l).
  { clear. induction l as [|e l IH]; [reflexivity|].
    cbn [List.filter].
    change (Effects.isInactive e) with (Effects.disabled e).
    change (Effects.isTemporaryOn e)
      with (negb (Effects.disabled e) && Effects.isTemporary e).
    change (Effects.isPassive e)
      with (negb (Effects.disabled e) && negb (Effects.isTemporary e)).
    destruct (Effects.disabled e), (Effects.isTemporary e); cbn [negb andb].
    - cbn. now constructor.
    - cbn. now constructor.
    - cbn [app]. rewrite <- Permutation_middle. now constructor.
    - rewrite app_assoc, <- Permutation_middle, <- app_assoc. now constructor. }
  split; [exact HP|]. split.
  - apply Permutation_length in HP. rewrite !length_app in HP. lia.
  - intros e He. rewrite !List.filter_In.
    unfold Effects.isTemporaryOn, Effects.isPassive, Effects.isInactive.
    destruct (Effects.disabled e), (Effects.isTemporary e); cbn;
      intuition discriminate.
Qed.

Lemma categories_partition_witness :
  let l := [Cases.burning; Cases.blessed; Cases.dormant] in
  let categories := fst (Effects.prepareActiveEffectCategories l) in
  In Cases.dormant l /\
  ((In Cases.dormant (Effects.effects (Effects.inactive categories)) /\
    ~ In Cases.dormant (Effects.effects (Effects.temporary categories)) /\
    ~ In Cases.dormant (Effects.effects (Effects.passive categories))) \/
   (~ In Cases.dormant (Effects.effects (Effects.inactive categories)) /\
    In Cases.dormant (Effects.effects (Effects.temporary categories)) /\
    ~ In Cases.dormant (Effects.effects (Effects.passive categories))) \/
   (~ In Cases.dormant (Effects.effects (Effects.inactive categories)) /\
    ~ In Cases.dormant (Effects.effects (Effects.temporary categories)) /\
    In Cases.dormant (Effects.effects (Effects.passive categories)))).
Proof.
  intros l categories.
  assert (H : In Cases.dormant l) by (cbn; auto).
  split; [exact H|].
  exact (proj2 (proj2 (categories_partition l)) Cases.dormant H).
Defined.

(** The three sample effects: the disabled temporary one is inactive. *)
Example categories_of_sample :
  let categories :=
    fst (Effects.prepareActiveEffectCategories
           [Cases.burning; Cases.blessed; Cases.dormant]) in
  Effects.effects (Effects.temporary categories) = [Cases.burning] /\
  Effects.effects (Effects.passive categories) = [Cases.blessed] /\
  Effects.effects (Effects.inactive categories) = [Cases.dormant].
Proof. repeat split. Qed.

(** ** Toggling a status effect *)

Section ToggleProperties.

Variable migrateAndClean : Effects.CreateData -> Effects.CreateData.
Variable localize : string -> string.
Variable effectData : Effects.StatusEffect.

(** The test of the reducer: one status, and it is the toggled one. *)
Lemma only_status_test (e : Effects.ActiveEffect) :
  (size (Effects.statuses e) =? 1)%nat
  && bool_decide (Effects.status_id effectData ∈ Effects.statuses e)
  = Effects.hasOnlyStatus (Effects.status_id effectData) e.
Proof.
  unfold Effects.hasOnlyStatus.
  destruct (decide (Effects.statuses e = {[ Effects.status_id effectData ]})) as [E|E].
  - rewrite (bool_decide_eq_true_2 _ E), E, size_singleton.
    cbn. apply bool_decide_eq_true_2. now apply elem_of_singleton.
  - rewrite (bool_decide_eq_false_2 _ E).
    destruct (Nat.eqb_spec (size (Effects.statuses e)) 1) as [Hs|Hs]; [|reflexivity].
    cbn. apply bool_decide_eq_false_2. intros Hin. apply E.
    apply size_1_elem_of in Hs. destruct Hs as (x & Hx).
    apply leibniz_equiv in Hx. rewrite Hx in Hin |- *.
    apply elem_of_singleton in Hin. now subst.
Qed.

Lemma collectExisting_fold (l : list Effects.ActiveEffect) (arr : list string) :
  fold_left (Effects.collectExisting effectData) l arr =
  arr ++ map Effects.id
           (List.filter (Effects.hasOnlyStatus (Effects.status_id effectData)) l).
Proof.
  revert arr. induction l as [|e l IH]; intros arr.
  - cbn. now rewrite app_nil_r.
  - cbn [fold_left List.filter]. unfold Effects.collectExisting at 2.
    rewrite only_status_test, IH.
    destruct (Effects.hasOnlyStatus (Effects.status_id effectData) e);
      [cbn [map]; now rewrite <- app_assoc|reflexivity].
Qed.

End ToggleProperties.

(** X15: [toggleEffect] looks only at the effects whose single status is the
    toggled one.  If the actor has any, it asks for exactly those to be
    deleted, in their order, and answers false, so an effect that carries
    the status together with another one is left alone; if it has none, it
    asks for one effect to be created from the cleaned data, whose statuses
    were set to the toggled status alone, with the localized name, and
    answers true. *)
Theorem toggleEffect_selects_single_status
    (migrateAndClean : Effects.CreateData -> Effects.CreateData)
    (localize : string -> string)
    (actorEffects : list Effects.ActiveEffect) (effectData : Effects.StatusEffect) :
  let status := Effects.status_id effectData in
  let matching := List.filter (Effects.hasOnlyStatus status) actorEffects in
  let cleaned :=
    migrateAndClean {| Effects.create_name := Effects.status_name effectData;
                       Effects.create_icon := Effects.status_icon effectData;
                       Effects.create_statuses := [status] |} in
  (matching <> [] ->
   Effects.toggleEffect migrateAndClean localize actorEffects effectData =
     (Effects.deleteEmbeddedDocuments (map Effects.id matching), false)) /\
  (matching = [] ->
   Effects.toggleEffect migrateAndClean localize actorEffects effectData =
     (Effects.create
        {| Effects.create_name := localize (Effects.create_name cleaned);
           Effects.create_icon := Effects.create_icon cleaned;
           Effects.create_statuses := Effects.create_statuses cleaned |}, true)) /\
  (forall e, In e actorEffects -> Effects.statuses e <> {[ status ]} ->
             ~ In e matching).
Proof.
  intros status matching cleaned. unfold Effects.toggleEffect.
  rewrite collectExisting_fold. cbn [app]. fold status. fold matching.
  split; [|split].
  - intros Hne. destruct matching as [|e m]; [congruence|]. reflexivity.
  - intros ->. reflexivity.
  - intros e _ Hs Hin. subst matching. apply List.filter_In in Hin.
    destruct Hin as (_ & Hin). unfold Effects.hasOnlyStatus in Hin.
    apply bool_decide_eq_true_1 in Hin. contradiction.
Qed.

Lemma toggleEffect_selects_single_status_witness :
  let actorEffects := [Cases.burning; Cases.blessed; Cases.dormant] in
  List.filter (Effects.hasOnlyStatus "burning") actorEffects <> [] /\
  Effects.toggleEffect (fun d => d) (fun s => s) actorEffects Cases.burningStatus =
    (Effects.deleteEmbeddedDocuments
       (map Effects.id (List.filter (Effects.hasOnlyStatus "burning") actorEffects)),
     false).
Proof.
  intros actorEffects.
  assert (H : List.filter (Effects.hasOnlyStatus "burning") actorEffects <> [])
    by (vm_compute; discriminate).
  split; [exact H|].
  exact (proj1 (toggleEffect_selects_single_status (fun d => d) (fun s => s)
                  actorEffects Cases.burningStatus) H).
Defined.

(** Toggling burning on the sample effects removes the effect that is
    burning only, not the dormant one that is burning and slow. *)
Example toggle_burning_off :
  Effects.toggleEffect (fun d => d) (fun s => s)
    [Cases.burning; Cases.blessed; Cases.dormant] Cases.burningStatus
  = (Effects.deleteEmbeddedDocuments ["e1"], false).
Proof. vm_compute. reflexivity. Qed.

(** ** The effect controls *)

(** X16: [onManageActiveEffect] creates without looking at the owner's
    effects or at the effect id: the new effect lasts one round exactly
    under the temporary header and is disabled exactly under the inactive
    one.  Editing, deleting and toggling need the effect: with no effect
    id, an empty one, or one the owner has no effect for, the call ends in
    a [TypeError] and requests nothing.  Any other action does nothing. *)
Theorem manage_effect_edge_cases (event : Effects.ControlEvent)
    (ownerEffects : list Effects.ActiveEffect) :
  (Effects.action event = Some "create" ->
   Effects.onManageActiveEffect event ownerEffects =
     Effects.Requested
       (Effects.createEmbeddedDocuments "New Effect" "icons/svg/aura.svg"
          (if Effects.dataset_is (Effects.effectType event) "temporary"
           then Some 1%Z else None)
          (Effects.dataset_is (Effects.effectType event) "inactive"))) /\
  (Effects.action event = Some "edit" \/ Effects.action event = Some "delete" \/
   Effects.action event = Some "toggle" ->
   Effects.effectId event = None \/ Effects.effectId event = Some "" \/
   (exists i, Effects.effectId event = Some i /\
              Effects.effects_get ownerEffects i = None) ->
   Effects.onManageActiveEffect event ownerEffects = Effects.TypeError) /\
  (Effects.action event <> Some "create" -> Effects.action event <> Some "edit" ->
   Effects.action event <> Some "delete" -> Effects.action event <> Some "toggle" ->
   Effects.onManageActiveEffect event ownerEffects = Effects.Nothing).
Proof.
  unfold Effects.onManageActiveEffect. split; [|split].
  - intros ->. reflexivity.
  - intros Ha Hid.
    assert (He : (if Effects.string_truthy (Effects.effectId event)
                  then Effects.effects_get ownerEffects
                         (default "" (Effects.effectId event))
                  else None) = None).
    { destruct Hid as [->|[->|(i & -> & Hi)]]; try reflexivity.
      cbn. rewrite Hi. now destruct (negb (String.eqb i "")). }
    rewrite He. destruct Ha as [->|[->| ->]]; reflexivity.
  - intros Hc He Hd Ht. unfold Effects.dataset_is.
    destruct (Effects.action event) as [s|]; [|reflexivity].
    repeat match goal with
           | |- context [String.eqb s ?lit] =>
               destruct (String.eqb_spec s lit); [congruence|]
           end.
    reflexivity.
Qed.

Lemma manage_effect_edge_cases_witness :
  let event := {| Effects.action := Some "delete"; Effects.effectId := Some "e9";
                  Effects.effectType := Some "passive" |} in
  let ownerEffects := [Cases.burning; Cases.blessed] in
  Effects.effects_get ownerEffects "e9" = None /\
  Effects.onManageActiveEffect event ownerEffects = Effects.TypeError.
Proof.
  intros event ownerEffects.
  assert (H : Effects.effects_get ownerEffects "e9" = None) by reflexivity.
  split; [exact H|].
  exact (proj1 (proj2 (manage_effect_edge_cases event ownerEffects))
           (or_intror (or_introl eq_refl))
           (or_intror (or_intror (ex_intro _ "e9" (conj eq_refl H))))).
Defined.

Lemma effects_get_id (ownerEffects : list Effects.ActiveEffect) (i : string)
    (e : Effects.ActiveEffect) :
  Effects.effects_get ownerEffects i = Some e -> In e ownerEffects /\ Effects.id e = i.
Proof.
  unfold Effects.effects_get. intros H. apply List.find_some in H.
  destruct H as (Hin & Heq). split; [exact Hin|]. now apply String.eqb_eq.
Qed.

(** X17: the toggle control of an effect the owner has asks for that
    effect, the one with the given id, to be updated with the negation of
    its disabled flag.  Once the flag is set so, the effect is listed as
    inactive exactly when it was enabled before, and a second toggle asks
    for the original flag again. *)
Theorem toggle_control_flips_disabled (ownerEffects : list Effects.ActiveEffect)
    (i : string) (type : option string) (e : Effects.ActiveEffect) :
  i <> "" ->
  Effects.effects_get ownerEffects i = Some e ->
  let event := {| Effects.action := Some "toggle"; Effects.effectId := Some i;
                  Effects.effectType := type |} in
  let e' := Effects.with_disabled e (negb (Effects.disabled e)) in
  Effects.onManageActiveEffect event ownerEffects =
    Effects.Requested (Effects.update e (negb (Effects.disabled e))) /\
  In e ownerEffects /\ Effects.id e = i /\
  (In e' (Effects.effects
            (Effects.inactive (fst (Effects.prepareActiveEffectCategories [e']))))
   <-> Effects.disabled e = false) /\
  Effects.onManageActiveEffect event [e'] =
    Effects.Requested (Effects.update e' (Effects.disabled e)) /\
  Effects.with_disabled e' (Effects.disabled e) = e.
Proof.
  intros Hi Hget event e'.
  destruct (effects_get_id ownerEffects i e Hget) as (Hin & Hid).
  assert (Hne : negb (String.eqb i "") = true).
  { destruct (String.eqb_spec i ""); [contradiction|reflexivity]. }
  split; [|split; [exact Hin|split; [exact Hid|split; [|split]]]].
  - unfold Effects.onManageActiveEffect. cbn. rewrite Hne, Hget. reflexivity.
  - subst e'. destruct e as [ei [] [] es]; cbn; intuition (try discriminate; auto).
  - unfold Effects.onManageActiveEffect. cbn. rewrite Hne.
    subst e'. unfold Effects.with_disabled. cbn [Effects.id].
    rewrite Hid, String.eqb_refl. cbn [Effects.disabled].
    now rewrite negb_involutive.
  - subst e'. destruct e; reflexivity.
Qed.

Lemma toggle_control_flips_disabled_witness :
  let ownerEffects := [Cases.burning; Cases.blessed; Cases.dormant] in
  let event := {| Effects.action := Some "toggle"; Effects.effectId := Some "e3";
                  Effects.effectType := None |} in
  "e3" <> "" /\
  Effects.effects_get ownerEffects "e3" = Some Cases.dormant /\
  Effects.onManageActiveEffect event ownerEffects =
    Effects.Requested (Effects.update Cases.dormant (negb (Effects.disabled Cases.dormant))).
Proof.
  intros ownerEffects event.
  assert (H1 : "e3" <> "") by discriminate.
  assert (H2 : Effects.effects_get ownerEffects "e3" = Some Cases.dormant) by reflexivity.
  split; [exact H1|]. split; [exact H2|].
  exact (proj1 (toggle_control_flips_disabled ownerEffects "e3" None Cases.dormant H1 H2)).
Defined.

(** * Further properties of the request and of the calculation *)

(** X18: the damage type of a request is the one named in the extra damage
    info when it names a non-empty one, and the base type otherwise, an
    empty name counting as none; and on a request as the constructor
    leaves it, the tier the resolver starts from is the target's entry for
    that type, or none when it has no entry. *)
Theorem damage_type_decides_lookup (av : AffValue) (src : SourceInfo.t)
    (tgts : Targets) (b : BaseDamageInfo.t) (e : ExtraDamageInfo.t) (a : Actor.t) :
  let r := DamageRequest.constructor src tgts b e in
  (forall s, ExtraDamageInfo.damageType e = Some s -> s <> "" ->
             DamageRequest.damageType r = s) /\
  (ExtraDamageInfo.damageType e = None \/ ExtraDamageInfo.damageType e = Some "" ->
   DamageRequest.damageType r = BaseDamageInfo.type b) /\
  lookupAffinity av (Context.constructor r a) =
    default (none av) (Actor.affinities a !! DamageRequest.damageType r).
Proof.
  intros r. split; [|split].
  - intros s Hs Hne. subst r. cbn. unfold DamageRequest.resolveDamageType.
    rewrite Hs. destruct (String.eqb_spec s ""); [contradiction|reflexivity].
  - intros [H|H]; subst r; cbn; unfold DamageRequest.resolveDamageType;
      rewrite H; reflexivity.
  - subst r. unfold lookupAffinity. cbn.
    destruct (Actor.affinities a !! DamageRequest.resolveDamageType b e); reflexivity.
Qed.

Lemma damage_type_decides_lookup_witness :
  let e := {| ExtraDamageInfo.damageType := Some "ice";
              ExtraDamageInfo.damageBonus := Undefined;
              ExtraDamageInfo.extraDamage := Undefined;
              ExtraDamageInfo.hrZero := false;
              ExtraDamageInfo.ignoreVulnerable := false;
              ExtraDamageInfo.ignoreResistance := false;
              ExtraDamageInfo.ignoreImmunities := false;
              ExtraDamageInfo.ignoreAbsorption := false;
              ExtraDamageInfo.targets := TUndefined |} in
  ExtraDamageInfo.damageType e = Some "ice" /\ "ice" <> "" /\
  DamageRequest.damageType (Sample.request 1 10 e) = "ice".
Proof.
  intros e.
  assert (H : "ice" <> "") by discriminate.
  split; [reflexivity|]. split; [exact H|].
  exact (proj1 (damage_type_decides_lookup Sample.affValue Sample.source
                  (TArray [Sample.target 1]) (Sample.fire 10) e (Sample.target 1))
           "ice" eq_refl H).
Defined.

Lemma mul_assoc_values (x y z : value) : JS.mul x (JS.mul y z) = JS.mul (JS.mul x y) z.
Proof. unfold JS.mul. cbn [JS.ToNumber]. now rewrite nmul_assoc. Qed.

Lemma mul_one (x y : value) : JS.mul x (JS.mul y (JS.of_Z 1)) = JS.mul x y.
Proof.
  unfold JS.mul. cbn [JS.ToNumber]. rewrite ToNumber_of_Z_1.
  now rewrite nmul_1_r.
Qed.

(** X19: without listeners and off the override path, the affinity
    multiplier is applied last, to the amount with every bonus added and
    the scale flag, when it is truthy, already applied: the result is that
    scaled total times the table's multiplier for the resolved tier. *)
Theorem affinity_applies_to_scaled_total (av : AffValue) (r : DamageRequest.t)
    (a : Actor.t) :
  JS.truthy (Overrides.total (DamageRequest.overrides r)) = false ->
  let c := run_stages av no_listeners r a in
  let total := JS.add (DamageRequest.amount r) (sum (JS.values (Context.bonuses c))) in
  let scaled :=
    if JS.truthy (Actor.scaleIncomingDamage a)
    then JS.mul total (Actor.scaleIncomingDamage a)
    else total in
  let tier := Context.affinity (resolveAffinity av (Context.constructor r a)) in
  Context.result c = JS.mul scaled (affinityDamageModifier_at av tier).
Proof.
  intros Ht c total scaled tier. subst c scaled total.
  rewrite (run_stages_result av r a Ht).
  destruct (run_stages_maps av r a Ht) as (_ & ->). fold tier.
  destruct (JS.truthy (Actor.scaleIncomingDamage a)); cbn [app JS.values map snd product fold_right].
  - now rewrite mul_one, mul_assoc_values.
  - now rewrite mul_one.
Qed.

Lemma affinity_applies_to_scaled_total_witness :
  let r := Sample.cast 1 10 in
  let a := with_scale (Sample.warded 1) (JS.of_Z 3) in
  let c := run_stages Sample.affValue no_listeners r a in
  JS.truthy (Overrides.total (DamageRequest.overrides r)) = false /\
  Context.result c =
    JS.mul (JS.mul (JS.add (DamageRequest.amount r) (sum (JS.values (Context.bonuses c))))
              (JS.of_Z 3))
           (affinityDamageModifier_at Sample.affValue
              (Context.affinity (resolveAffinity Sample.affValue (Context.constructor r a)))).
Proof.
  intros r a c. split; [reflexivity|].
  exact (affinity_applies_to_scaled_total Sample.affValue r a eq_refl).
Defined.

(** The run of the witness: (10 + 6) * 3 * 0.5 = 24. *)
Example scaled_resisted_cast :
  Context.result
    (run_stages Sample.affValue no_listeners (Sample.cast 1 10)
       (with_scale (Sample.warded 1) (JS.of_Z 3)))
  = JS.of_Z 24.
Proof. vm_compute. apply Num_Fin_eq. reflexivity. Qed.
